(** * con.c: the container tree of the window manager

    A shallow embedding of [src/con.c]: containers live in a heap addressed
    by pointers, the intrusive TAILQ lists are the ordered sequences of
    element addresses kept in their head, and every function is a
    computation over the global state (heap, [all_cons], [focused], the
    function-static [cnt] of [con_new], and the log of calls made to
    collaborators outside this file). *)

From Stdlib Require Import QArith Qcanon String.
From stdpp Require Import base list.

Local Open Scope string_scope.
Local Open Scope list_scope.

(** ** Data model *)

(** A heap address.  [Con *] is [ptr]: [None] is [NULL]. *)
Abbreviation addr := nat (only parsing).
Abbreviation ptr := (option nat) (only parsing).

Inductive con_type_t := CT_ROOT | CT_OUTPUT | CT_CON | CT_FLOATING_CON | CT_WORKSPACE.
Inductive orientation_t := NO_ORIENTATION | HORIZ | VERT.
Inductive fullscreen_mode_t := CF_NONE | CF_OUTPUT.

#[global] Instance con_type_eq_dec : EqDecision con_type_t.
Proof. solve_decision. Defined.
#[global] Instance fullscreen_mode_eq_dec : EqDecision fullscreen_mode_t.
Proof. solve_decision. Defined.
#[global] Instance orientation_eq_dec : EqDecision orientation_t.
Proof. solve_decision. Defined.

(** [i3Window]: only its X11 id is read in this file. *)
Record i3Window := mkWindow { id : Z }.

(** A swallow rule; its contents are never inspected by the functions
    embedded here. *)
Definition Match := nat.

(** [struct Con], with the fields [con.c] reads or writes.  [percent] is a C
    [double]; it is embedded as an exact rational, so the arithmetic of
    [con_fix_percent] is the arithmetic of the field of rationals (no
    rounding, no infinities, no NaN). *)
Record Con := mkCon {
  type : con_type_t;
  name : string;
  orientation : orientation_t;
  percent : Qc;
  window : option i3Window;
  fullscreen_mode : fullscreen_mode_t;
  urgent : bool;
  parent : ptr;
  nodes_head : list addr;
  floating_head : list addr;
  focus_head : list addr;
  swallow_head : list Match
}.

Definition set_type (t : con_type_t) (c : Con) : Con :=
  mkCon t (name c) (orientation c) (percent c) (window c) (fullscreen_mode c)
        (urgent c) (parent c) (nodes_head c) (floating_head c) (focus_head c)
        (swallow_head c).
Definition set_name (n : string) (c : Con) : Con :=
  mkCon (type c) n (orientation c) (percent c) (window c) (fullscreen_mode c)
        (urgent c) (parent c) (nodes_head c) (floating_head c) (focus_head c)
        (swallow_head c).
Definition set_percent (q : Qc) (c : Con) : Con :=
  mkCon (type c) (name c) (orientation c) q (window c) (fullscreen_mode c)
        (urgent c) (parent c) (nodes_head c) (floating_head c) (focus_head c)
        (swallow_head c).
Definition set_fullscreen_mode (m : fullscreen_mode_t) (c : Con) : Con :=
  mkCon (type c) (name c) (orientation c) (percent c) (window c) m
        (urgent c) (parent c) (nodes_head c) (floating_head c) (focus_head c)
        (swallow_head c).
Definition set_urgent (u : bool) (c : Con) : Con :=
  mkCon (type c) (name c) (orientation c) (percent c) (window c) (fullscreen_mode c)
        u (parent c) (nodes_head c) (floating_head c) (focus_head c)
        (swallow_head c).
Definition set_parent (p : ptr) (c : Con) : Con :=
  mkCon (type c) (name c) (orientation c) (percent c) (window c) (fullscreen_mode c)
        (urgent c) p (nodes_head c) (floating_head c) (focus_head c)
        (swallow_head c).
Definition set_nodes_head (l : list addr) (c : Con) : Con :=
  mkCon (type c) (name c) (orientation c) (percent c) (window c) (fullscreen_mode c)
        (urgent c) (parent c) l (floating_head c) (focus_head c)
        (swallow_head c).
Definition set_floating_head (l : list addr) (c : Con) : Con :=
  mkCon (type c) (name c) (orientation c) (percent c) (window c) (fullscreen_mode c)
        (urgent c) (parent c) (nodes_head c) l (focus_head c)
        (swallow_head c).
Definition set_focus_head (l : list addr) (c : Con) : Con :=
  mkCon (type c) (name c) (orientation c) (percent c) (window c) (fullscreen_mode c)
        (urgent c) (parent c) (nodes_head c) (floating_head c) l
        (swallow_head c).
Definition set_swallow_head (l : list Match) (c : Con) : Con :=
  mkCon (type c) (name c) (orientation c) (percent c) (window c) (fullscreen_mode c)
        (urgent c) (parent c) (nodes_head c) (floating_head c) (focus_head c) l.

(** What [scalloc] hands out: every byte zero.  The enumerations come from a
    header that is not part of [con.c]; their zero members are the defaults
    the specification lists (no orientation, not fullscreen). *)
Definition zeroed : Con :=
  mkCon CT_ROOT EmptyString NO_ORIENTATION 0%Qc None CF_NONE false None [] [] [] [].

(** Calls that leave this file, in the order they are made. *)
Inductive event :=
| Ev_x_con_init (c : addr)
| Ev_change_window_attributes (c : addr) (color : string)
| Ev_workspace_update_urgent_flag (ws : addr)
| Ev_change_property (w : Z) (values : list string).

(** The globals [con.c] works on. *)
Record state := mkState {
  heap : list Con;
  all_cons : list addr;
  focused : ptr;
  cnt : nat;
  trace : list event
}.

Definition set_heap (h : list Con) (s : state) : state :=
  mkState h (all_cons s) (focused s) (cnt s) (trace s).

(** ** Computations

    A call either returns a value and a new state, stops on a failed
    [assert], runs into behaviour C leaves undefined (a dereferenced [NULL]
    or dangling pointer, a [TAILQ_REMOVE] of an element that is not linked
    in that list, an index outside [colors]), or uses up the fuel that
    bounds its loops and recursion. *)
Inductive outcome (A : Type) : Type :=
| Ok (a : A) (s : state)
| AssertFail
| Undef
| OutOfFuel.
Arguments Ok {A} a s.
Arguments AssertFail {A}.
Arguments Undef {A}.
Arguments OutOfFuel {A}.

Definition M (A : Type) : Type := state -> outcome A.

Definition ret {A} (a : A) : M A := fun s => Ok a s.
Definition bind {A B} (m : M A) (k : A -> M B) : M B :=
  fun s => match m s with
           | Ok a s' => k a s'
           | AssertFail => AssertFail
           | Undef => Undef
           | OutOfFuel => OutOfFuel
           end.
Definition undefined {A} : M A := fun _ => Undef.
Definition assert_fail {A} : M A := fun _ => AssertFail.
Definition out_of_fuel {A} : M A := fun _ => OutOfFuel.
Definition get : M state := fun s => Ok s s.
Definition put (s' : state) : M unit := fun _ => Ok tt s'.
Definition emit (e : event) : M unit :=
  fun s => Ok tt (mkState (heap s) (all_cons s) (focused s) (cnt s) (trace s ++ [e])).

Notation "'do' x <- m ; k" := (bind m (fun x => k))
  (at level 10, x name, m at level 100, k at level 200).
Notation "m ;; k" := (bind m (fun _ => k))
  (at level 100, k at level 200, right associativity).

(** Reading through a pointer. *)
Definition deref (p : ptr) : M Con :=
  fun s => match p with
           | None => Undef
           | Some a => match heap s !! a with
                       | Some c => Ok c s
                       | None => Undef
                       end
           end.

(** Writing through a pointer: a field update of the container at [p]. *)
Definition update (p : ptr) (f : Con -> Con) : M unit :=
  do c <- deref p;
  match p with
  | Some a => fun s => Ok tt (set_heap (<[a := f c]> (heap s)) s)
  | None => undefined
  end.

(** ** The TAILQ macros on the sequence of a list head *)

Definition TAILQ_INSERT_TAIL (l : list addr) (x : addr) : list addr := l ++ [x].
Definition TAILQ_INSERT_HEAD (l : list addr) (x : addr) : list addr := x :: l.

(** [TAILQ_REMOVE] unlinks the element through its own link fields; the
    macro is only defined for an element that is linked in this list. *)
Fixpoint TAILQ_REMOVE (l : list addr) (x : addr) : option (list addr) :=
  match l with
  | [] => None
  | y :: l' => if decide (x = y) then Some l'
               else match TAILQ_REMOVE l' x with
                    | Some r => Some (y :: r)
                    | None => None
                    end
  end.

Definition lift_remove (o : option (list addr)) : M (list addr) :=
  match o with
  | Some l => ret l
  | None => undefined
  end.

(** [TAILQ_REMOVE(&(owner->field), x, ...)] for the list field read by
    [fld] and written by [set_fld]. *)
Definition remove_from (fld : Con -> list addr) (set_fld : list addr -> Con -> Con)
    (owner : ptr) (x : addr) : M unit :=
  do o <- deref owner;
  do l <- lift_remove (TAILQ_REMOVE (fld o) x);
  update owner (set_fld l).

(** ** The functions of con.c *)

Definition colors : list string :=
  [ "#ff0000"; "#00FF00"; "#0000FF"; "#ff00ff"; "#00ffff";
    "#ffff00"; "#aa0000"; "#00aa00"; "#0000aa"; "#aa00aa" ].

(** [con_attach]: [con->parent = parent], then [con] goes to the tail of the
    parent's [nodes_head] and of its [focus_head]. *)
Definition con_attach (con parent : ptr) : M unit :=
  match con with
  | None => undefined
  | Some a =>
      update con (set_parent parent);;
      update parent (fun p => set_nodes_head (TAILQ_INSERT_TAIL (nodes_head p) a) p);;
      update parent (fun p => set_focus_head (TAILQ_INSERT_TAIL (focus_head p) a) p)
  end.

(** [con_detach]: no check of any kind precedes the two [TAILQ_REMOVE]s. *)
Definition con_detach (con : ptr) : M unit :=
  match con with
  | None => undefined
  | Some a =>
      do c <- deref con;
      if decide (type c = CT_FLOATING_CON) then
        remove_from floating_head set_floating_head (parent c) a;;
        do c <- deref con;
        remove_from focus_head set_focus_head (parent c) a
      else
        remove_from nodes_head set_nodes_head (parent c) a;;
        do c <- deref con;
        remove_from focus_head set_focus_head (parent c) a
  end.

(** Modelled from the spec: [x_con_init] and the X11 request that paints the
    frame are not part of [con.c]; the specification gives them as the
    collaborator capability that realizes a frame for the new node.  They
    are recorded in the trace and leave the tree alone. *)
Definition x_con_init (new : addr) : M unit := emit (Ev_x_con_init new).
Definition xcb_change_window_attributes (new : addr) (color : string) : M unit :=
  emit (Ev_change_window_attributes new color).

(** [cnt++], and back to zero when [cnt] reaches the number of colours. *)
Definition next_cnt (n : nat) : nat :=
  if decide (S n mod length colors = 0) then 0 else S n.

(** [con_new].  [scalloc] returns zeroed memory at an address that was not
    in use: the next free cell of the heap.  The name is first set to the
    empty string, then to the colour.  [cnt] is the function's static
    counter. *)
Definition con_new (parent : ptr) : M ptr :=
  do s <- get;
  let a := length (heap s) in
  let new := Some a in
  put (mkState (heap s ++ [zeroed]) (TAILQ_INSERT_TAIL (all_cons s) a)
               (focused s) (cnt s) (trace s));;
  update new (set_type CT_CON);;
  update new (set_name EmptyString);;
  match colors !! cnt s with
  | None => undefined
  | Some color =>
      update new (set_name color);;
      (do s1 <- get;
       put (mkState (heap s1) (all_cons s1) (focused s1) (next_cnt (cnt s1)) (trace s1)));;
      x_con_init a;;
      xcb_change_window_attributes a color;;
      update new (set_floating_head []);;
      update new (set_nodes_head []);;
      update new (set_focus_head []);;
      update new (set_swallow_head []);;
      match parent with
      | Some _ => con_attach new parent
      | None => ret tt
      end;;
      ret new
  end.

(** The loop shared by [con_get_output] and [con_get_workspace]:
    [while (result != NULL && result->type != t) result = result->parent]. *)
Fixpoint walk_up (t : con_type_t) (fuel : nat) (result : ptr) : M ptr :=
  match fuel with
  | 0 => out_of_fuel
  | S fuel' =>
      match result with
      | None => ret None
      | Some _ =>
          do r <- deref result;
          if decide (type r = t) then ret result
          else walk_up t fuel' (parent r)
      end
  end.

Definition con_get_output (fuel : nat) (con : ptr) : M ptr :=
  do result <- walk_up CT_OUTPUT fuel con;
  match result with
  | None => assert_fail
  | Some _ => ret result
  end.

Definition con_get_workspace (fuel : nat) (con : ptr) : M ptr :=
  do result <- walk_up CT_WORKSPACE fuel con;
  match result with
  | None => assert_fail
  | Some _ => ret result
  end.

(** Modelled from the spec: [workspace_update_urgent_flag] is not part of
    [con.c]; the specification gives it as the notification that a
    workspace's urgent flag may need recomputation, and leaves what the
    workspace does with it out of scope.  The call is recorded in the
    trace. *)
Definition workspace_update_urgent_flag (ws : ptr) : M unit :=
  match ws with
  | Some w => emit (Ev_workspace_update_urgent_flag w)
  | None => undefined
  end.

Definition set_focused (p : ptr) : M unit :=
  fun s => Ok tt (mkState (heap s) (all_cons s) p (cnt s) (trace s)).

(** [con_focus].  No statement of the function writes a [parent] field, so
    [con->parent] is read once. *)
Fixpoint con_focus (fuel : nat) (con : ptr) : M unit :=
  match fuel with
  | 0 => out_of_fuel
  | S fuel' =>
      match con with
      | None => assert_fail
      | Some a =>
          do c <- deref con;
          remove_from focus_head set_focus_head (parent c) a;;
          update (parent c)
                 (fun p => set_focus_head (TAILQ_INSERT_HEAD (focus_head p) a) p);;
          do p <- deref (parent c);
          match parent p with
          | Some _ => con_focus fuel' (parent c)
          | None => ret tt
          end;;
          set_focused con;;
          do c' <- deref con;
          if urgent c' then
            update con (set_urgent false);;
            do ws <- con_get_workspace fuel' con;
            workspace_update_urgent_flag ws
          else ret tt
      end
  end.

(** [con_get_fullscreen_con]: the queue [bfs_head] starts as [[con]]; an
    entry is taken from the front, tested, and its children are appended at
    the back.  An entry that passes or fails the test is dereferenced either
    way (for its mode or for its children), so the read comes first. *)
Fixpoint bfs_loop (fuel : nat) (con : ptr) (bfs_head : list ptr) : M ptr :=
  match fuel with
  | 0 => out_of_fuel
  | S fuel' =>
      match bfs_head with
      | [] => ret None
      | current :: rest =>
          do cur <- deref current;
          if decide (current <> con /\ fullscreen_mode cur <> CF_NONE) then ret current
          else bfs_loop fuel' con (rest ++ map Some (nodes_head cur))
      end
  end.

Definition con_get_fullscreen_con (fuel : nat) (con : ptr) : M ptr :=
  bfs_loop fuel con [con].





(** [con_toggle_fullscreen].  The tail of the function tells the client of
    the new state when the container has a window. *)
Definition push_net_wm_state (con : ptr) : M unit :=
  do c <- deref con;
  match window c with
  | None => ret tt
  | Some w =>
      emit (Ev_change_property (id w)
              (if decide (fullscreen_mode c <> CF_NONE)
               then ["_NET_WM_STATE_FULLSCREEN"] else []))
  end.

Definition con_toggle_fullscreen (fuel : nat) (con : ptr) : M unit :=
  do c <- deref con;
  if decide (fullscreen_mode c = CF_NONE) then
    do workspace <- con_get_workspace fuel con;
    do fullscreen <- con_get_fullscreen_con fuel workspace;
    match fullscreen with
    | Some _ => ret tt
    | None =>
        update con (set_fullscreen_mode CF_OUTPUT);;
        push_net_wm_state con
    end
  else
    update con (set_fullscreen_mode CF_NONE);;
    push_net_wm_state con.

(** The list [con_detach] removes the node from first. *)
Definition expected_list (c pc : Con) : list addr :=
  if decide (type c = CT_FLOATING_CON) then floating_head pc else nodes_head pc.


(** ** The other functions of con.c *)

(** [con_is_leaf]: [TAILQ_EMPTY(&(con->nodes_head))]. *)
Definition con_is_leaf (con : ptr) : M bool :=
  do c <- deref con;
  ret (match nodes_head c with [] => true | _ => false end).

(** [con_accepts_window]. *)
Definition con_accepts_window (con : ptr) : M bool :=
  do c <- deref con;
  if decide (type c = CT_WORKSPACE) then ret false
  else if decide (orientation c <> NO_ORIENTATION) then ret false
  else ret (match window c with None => true | Some _ => false end).

(** [con_by_window_id]: [TAILQ_FOREACH] over [all_cons], returning at the
    first container whose window has the id. *)
Fixpoint by_window_id_loop (window_id : Z) (l : list addr) : M ptr :=
  match l with
  | [] => ret None
  | con :: l' =>
      do c <- deref (Some con);
      match window c with
      | Some w => if decide (id w = window_id) then ret (Some con)
                  else by_window_id_loop window_id l'
      | None => by_window_id_loop window_id l'
      end
  end.

Definition con_by_window_id (window_id : Z) : M ptr :=
  do s <- get;
  by_window_id_loop window_id (all_cons s).

(** [con_for_window].  [match_matches_window] is not part of [con.c]: it is
    the predicate that says whether a swallow rule accepts a window, taken
    here as a parameter.  The result is the container returned together
    with what the call writes through [store_match]: the rule, when the
    caller passed a pointer, and nothing otherwise. *)
Section matching.

Variable match_matches_window : Match -> i3Window -> bool.

Fixpoint swallow_loop (window : i3Window) (l : list Match) : option Match :=
  match l with
  | [] => None
  | m :: l' => if match_matches_window m window then Some m
               else swallow_loop window l'
  end.

Fixpoint for_window_loop (window : i3Window) (l : list addr) : M (ptr * option Match) :=
  match l with
  | [] => ret (None, None)
  | con :: l' =>
      do c <- deref (Some con);
      match swallow_loop window (swallow_head c) with
      | Some m => ret (Some con, Some m)
      | None => for_window_loop window l'
      end
  end.

(** The first rule of the container at [x] that accepts the window, if one
    does. *)
Definition first_rule (s : state) (window : i3Window) (x : addr) : option Match :=
  match heap s !! x with
  | Some c => swallow_loop window (swallow_head c)
  | None => None
  end.

Definition con_for_window (window : i3Window) (store_match : bool)
  : M (ptr * option Match) :=
  do s <- get;
  do r <- for_window_loop window (all_cons s);
  ret (fst r, if store_match then snd r else None).

End matching.

(** ** Ancestors

    The node [k] parent links above [p] ([p] itself for [k = 0]), and the
    kind of the container at an address. *)
Fixpoint nth_ancestor (s : state) (k : nat) (p : ptr) : ptr :=
  match k with
  | 0 => p
  | S k' =>
      match p with
      | Some a =>
          match heap s !! a with
          | Some c => nth_ancestor s k' (parent c)
          | None => None
          end
      | None => None
      end
  end.

Definition type_at (s : state) (a : addr) : option con_type_t :=
  type <$> heap s !! a.

(** [r] is the nearest container of kind [t] on the way up from [p], [p]
    included: it is [j] links above [p], and nothing below it on that way is
    of kind [t]. *)
Definition nearest_of_kind (s : state) (t : con_type_t) (p : ptr) (j : nat) (r : addr)
  : Prop :=
  nth_ancestor s j p = Some r /\ type_at s r = Some t /\
  forall i x, i < j -> nth_ancestor s i p = Some x -> type_at s x <> Some t.

(** ** Levels of the tree below a container

    The children of a container, the next level below a row of containers
    (their children, left to right), the row [k] levels below a row, and
    the first [n] rows from a row on, one after the other: level order. *)
Definition kids (s : state) (a : addr) : list addr :=
  match heap s !! a with
  | Some c => nodes_head c
  | None => []
  end.

Definition next_level (s : state) (l : list addr) : list addr :=
  flat_map (kids s) l.

Fixpoint level (s : state) (k : nat) (l : list addr) : list addr :=
  match k with
  | 0 => l
  | S k' => level s k' (next_level s l)
  end.

Fixpoint level_order (s : state) (n : nat) (l : list addr) : list addr :=
  match n with
  | 0 => []
  | S n' => l ++ level_order s n' (next_level s l)
  end.

(** The strict descendants of [c] down to depth [n], in level order: the
    children of [c] from left to right, then their children, and so on. *)
Definition descendants (s : state) (n : nat) (c : addr) : list addr :=
  level_order s n (kids s c).

Definition is_fullscreen (s : state) (a : addr) : bool :=
  match heap s !! a with
  | Some c => bool_decide (fullscreen_mode c <> CF_NONE)
  | None => false
  end.

(** The test [con_get_fullscreen_con] applies to the entry at the front of
    its queue. *)
Definition bfs_test (s : state) (con : ptr) (a : addr) : bool :=
  bool_decide (Some a <> con) && is_fullscreen s a.

(** ** The way up to the root

    [root_path s a l]: [l] lists [a], its parent, its grandparent and so on
    up to the container that has no parent. *)
Inductive root_path (s : state) : addr -> list addr -> Prop :=
| root_path_root a c :
    heap s !! a = Some c -> parent c = None -> root_path s a [a]
| root_path_step a c p l :
    heap s !! a = Some c -> parent c = Some p -> root_path s p l ->
    root_path s a (a :: l).

Definition focus_of (s : state) (a : addr) : list addr :=
  match heap s !! a with
  | Some c => focus_head c
  | None => []
  end.

(** Every container on the path is linked in the focus order of the next. *)
Fixpoint linked (s : state) (l : list addr) : Prop :=
  match l with
  | x :: (y :: _) as l' => x ∈ focus_of s y /\ linked s l'
  | _ => True
  end.

Definition is_urgent (s : state) (a : addr) : bool :=
  match heap s !! a with
  | Some c => urgent c
  | None => false
  end.

(** The container of the path whose parent is [x], if [x] is the parent of
    one. *)
Fixpoint child_on_path (l : list addr) (x : addr) : option addr :=
  match l with
  | y :: (z :: _) as l' => if decide (z = x) then Some y else child_on_path l' x
  | _ => None
  end.

(** A focus order with [y] moved to the head. *)
Definition promote (y : addr) (fl : list addr) : list addr :=
  match TAILQ_REMOVE fl y with
  | Some r => TAILQ_INSERT_HEAD r y
  | None => fl
  end.

(** [c'] is [c] up to its urgent flag and its focus order. *)
Definition keeps_structure (c c' : Con) : Prop :=
  c' = set_urgent (urgent c') (set_focus_head (focus_head c') c).

(** From [s] to [s'] no container appears or disappears, and each keeps
    everything but its urgent flag and its focus order. *)
Definition frame (s s' : state) : Prop :=
  all_cons s' = all_cons s /\ cnt s' = cnt s /\
  length (heap s') = length (heap s) /\
  forall x c, heap s !! x = Some c ->
    exists c', heap s' !! x = Some c' /\ keeps_structure c c'.

(** What [con_focus] leaves of a container [c] at [x] when the path from
    the focused container to the root is [l]. *)
Definition focus_result (l : list addr) (x : addr) (c c' : Con) : Prop :=
  keeps_structure c c' /\
  urgent c' = (if decide (x ∈ removelast l) then false else urgent c) /\
  focus_head c' = match child_on_path l x with
                  | Some y => promote y (focus_head c)
                  | None => focus_head c
                  end.

(** Every urgent container on the path, the root apart, is a workspace or
    has one above it: the notification [con_focus] sends has an
    addressee. *)
Definition urgent_ok (s : state) (l : list addr) : Prop :=
  forall x, x ∈ removelast l -> is_urgent s x = true ->
    exists j ws, nearest_of_kind s CT_WORKSPACE (Some x) j ws.

(** ** Well-formed states *)

(** The registry lists allocated containers, each once. *)
Definition registry_ok (s : state) : Prop :=
  NoDup (all_cons s) /\ forall x, x ∈ all_cons s -> x < length (heap s).

(** The container at [x] has a window with this id. *)
Definition has_window_id (s : state) (window_id : Z) (x : addr) : bool :=
  match heap s !! x with
  | Some c => match window c with
              | Some w => bool_decide (id w = window_id)
              | None => false
              end
  | None => false
  end.

(** The focus order of every container lists its children and its floating
    windows, each as often as they are linked. *)
Definition focus_orders_ok (s : state) : Prop :=
  forall x c, heap s !! x = Some c ->
    focus_head c ≡ₚ nodes_head c ++ floating_head c.


(** A container after [child] was attached to it. *)
Definition attached (child : addr) (c : Con) : Con :=
  set_focus_head (TAILQ_INSERT_TAIL (focus_head c) child)
                 (set_nodes_head (TAILQ_INSERT_TAIL (nodes_head c) child) c).

(** The [_NET_WM_STATE] update [con_toggle_fullscreen] sends for a container
    in the state [c]: one request when it has a window, none otherwise. *)
Definition window_event (c : Con) : list event :=
  match window c with
  | Some w => [Ev_change_property (id w)
                 (if decide (fullscreen_mode c <> CF_NONE)
                  then ["_NET_WM_STATE_FULLSCREEN"] else [])]
  | None => []
  end.

(** The state after the mode of the container at [a] was set to [m] and the
    client was told. *)
Definition toggled (s : state) (a : addr) (c : Con) (m : fullscreen_mode_t) : state :=
  mkState (<[a := set_fullscreen_mode m c]> (heap s)) (all_cons s) (focused s) (cnt s)
          (trace s ++ window_event (set_fullscreen_mode m c)).


(** C8, as the specification has it: a call that breaks the precondition
    ends in a reported contract failure. *)
Definition detach_reports_violation (s : state) (a : addr) : Prop :=
  forall c, heap s !! a = Some c ->
    (parent c = None \/
     exists p pc, parent c = Some p /\ heap s !! p = Some pc /\ a ∉ expected_list c pc) ->
    con_detach (Some a) s = AssertFail.

(** What [con_new] leaves at the new address. *)
Definition fresh_con (color : string) (parent : ptr) : Con :=
  mkCon CT_CON color NO_ORIENTATION 0%Qc None CF_NONE false parent [] [] [] [].

(** C7, as the specification has it: the defaults of the returned node. *)
Definition con_new_defaults (s : state) (par : ptr) : Prop :=
  forall a s' c, con_new par s = Ok (Some a) s' -> heap s' !! a = Some c ->
    name c = EmptyString /\ orientation c = NO_ORIENTATION /\ window c = None /\
    fullscreen_mode c = CF_NONE /\ urgent c = false.

(** ** A sample tree

    [0] root, [1] output, [2] workspace with the children [3], [4], [5];
    [4] splits into [6] and [7]; [8] is the only child of [7]; [9] has been
    created and not attached.  [4] and [7] are urgent. *)
Definition node (t : con_type_t) (par : ptr) (kids : list addr) : Con :=
  mkCon t EmptyString NO_ORIENTATION 0%Qc None CF_NONE false par kids [] kids [].

Definition sample_heap : list Con :=
  [ node CT_ROOT None [1];
    node CT_OUTPUT (Some 0) [2];
    node CT_WORKSPACE (Some 1) [3; 4; 5];
    set_percent (Q2Qc (1 # 2)) (node CT_CON (Some 2) []);
    set_urgent true (set_percent (Q2Qc (1 # 2)) (node CT_CON (Some 2) [6; 7]));
    node CT_CON (Some 2) [];
    node CT_CON (Some 4) [];
    set_urgent true (node CT_CON (Some 4) [8]);
    node CT_CON (Some 7) [];
    node CT_CON None [] ].

Definition sample : state :=
  mkState sample_heap [0; 1; 2; 3; 4; 5; 6; 7; 8; 9] (Some 3) 0 [].

(** The sample tree with [6] (two levels below the workspace) and [8] (three
    levels below it) in fullscreen mode. *)
Definition sample_fullscreen : state :=
  set_heap (<[6 := set_fullscreen_mode CF_OUTPUT (node CT_CON (Some 4) [])]>
            (<[8 := set_fullscreen_mode CF_OUTPUT (node CT_CON (Some 7) [])]>
             sample_heap)) sample.

(** The sample tree with windows on [3] (id 100), [6] (id 200) and [8]
    (id 100 again), and swallow rules on [5] and [6]. *)
Definition set_window (w : option i3Window) (c : Con) : Con :=
  mkCon (type c) (name c) (orientation c) (percent c) w (fullscreen_mode c)
        (urgent c) (parent c) (nodes_head c) (floating_head c) (focus_head c)
        (swallow_head c).

Definition sample_windows : state :=
  set_heap (<[3 := set_window (Some (mkWindow 100)) (node CT_CON (Some 2) [])]>
            (<[5 := set_swallow_head [1; 2] (node CT_CON (Some 2) [])]>
             (<[6 := set_swallow_head [2; 3]
                       (set_window (Some (mkWindow 200)) (node CT_CON (Some 4) []))]>
              (<[8 := set_window (Some (mkWindow 100)) (node CT_CON (Some 7) [])]>
               sample_heap)))) sample.

(** A matcher for the examples: rule [m] accepts the windows whose id is
    [m]. *)
Definition sample_matcher (m : Match) (w : i3Window) : bool :=
  bool_decide (Z.of_nat m = id w).
(** ** Stepping through computations *)

Lemma bind_ok {A B} (m : M A) (k : A -> M B) s a s' :
  m s = Ok a s' -> bind m k s = k a s'.
Proof. intros H. unfold bind. now rewrite H. Qed.

Lemma bind_undef {A B} (m : M A) (k : A -> M B) s :
  m s = Undef -> bind m k s = Undef.
Proof. intros H. unfold bind. now rewrite H. Qed.

Lemma deref_ok s a c : heap s !! a = Some c -> deref (Some a) s = Ok c s.
Proof. intros H. unfold deref. now rewrite H. Qed.

Lemma update_ok s a c f :
  heap s !! a = Some c ->
  update (Some a) f s = Ok tt (set_heap (<[a := f c]> (heap s)) s).
Proof. intros H. unfold update. now rewrite (bind_ok _ _ _ _ _ (deref_ok _ _ _ H)). Qed.

(** Running a computation one statement further: a read through a valid
    pointer, a write through one, or any statement whose result is known. *)
Ltac step_with H := rewrite (bind_ok _ _ _ _ _ H).
Ltac step_deref H := rewrite (bind_ok _ _ _ _ _ (deref_ok _ _ _ H)).
Ltac step_update H := rewrite (bind_ok _ _ _ _ _ (update_ok _ _ _ _ H)).

Lemma remove_from_ok fld set_fld s a o x l :
  heap s !! a = Some o -> TAILQ_REMOVE (fld o) x = Some l ->
  remove_from fld set_fld (Some a) x s
  = Ok tt (set_heap (<[a := set_fld l o]> (heap s)) s).
Proof.
  intros Ho Hl. unfold remove_from.
  step_deref Ho. rewrite Hl. simpl.
  unfold bind, ret. now apply update_ok.
Qed.

Lemma remove_from_absent fld set_fld s a o x :
  heap s !! a = Some o -> TAILQ_REMOVE (fld o) x = None ->
  remove_from fld set_fld (Some a) x s = Undef.
Proof.
  intros Ho Hl. unfold remove_from.
  step_deref Ho. now rewrite Hl.
Qed.

(** ** Facts about the TAILQ macros *)

Lemma TAILQ_REMOVE_tail l x : x ∉ l -> TAILQ_REMOVE (TAILQ_INSERT_TAIL l x) x = Some l.
Proof.
  unfold TAILQ_INSERT_TAIL. induction l as [|y l IH]; intros Hx; simpl.
  - now rewrite decide_True.
  - rewrite not_elem_of_cons in Hx. destruct Hx as [Hxy Hl].
    rewrite decide_False by done. now rewrite IH.
Qed.

Lemma TAILQ_REMOVE_Some l x : x ∈ l -> is_Some (TAILQ_REMOVE l x).
Proof.
  induction l as [|y l IH]; intros Hx; simpl.
  - now apply elem_of_nil in Hx.
  - destruct (decide (x = y)); [eauto|].
    apply elem_of_cons in Hx as [?|Hx]; [done|].
    destruct (IH Hx) as [r ->]. eauto.
Qed.

Lemma TAILQ_REMOVE_None l x : x ∉ l -> TAILQ_REMOVE l x = None.
Proof.
  induction l as [|y l IH]; intros Hx; simpl; [done|].
  rewrite not_elem_of_cons in Hx. destruct Hx as [Hxy Hl].
  rewrite decide_False by done. now rewrite IH.
Qed.


(** What is removed and what is left: the other elements, in their order. *)
Lemma TAILQ_REMOVE_split l x r :
  TAILQ_REMOVE l x = Some r ->
  exists l1 l2, l = l1 ++ x :: l2 /\ r = l1 ++ l2 /\ x ∉ l1.
Proof.
  revert r. induction l as [|y l IH]; intros r Hr; simpl in Hr; [done|].
  destruct (decide (x = y)) as [->|Hne].
  - injection Hr as <-. exists [], l. split_and!; [done..|]. apply not_elem_of_nil.
  - destruct (TAILQ_REMOVE l x) as [r'|] eqn:E; [|done].
    injection Hr as <-. destruct (IH _ eq_refl) as (l1 & l2 & -> & -> & Hx).
    exists (y :: l1), l2. split_and!; [done..|].
    rewrite not_elem_of_cons. done.
Qed.

(** ** Attaching and detaching *)

Lemma con_attach_ok s a p c pc :
  heap s !! a = Some c -> heap s !! p = Some pc -> a <> p ->
  con_attach (Some a) (Some p) s
  = Ok tt (set_heap (<[p := set_focus_head (focus_head pc ++ [a])
                              (set_nodes_head (nodes_head pc ++ [a]) pc)]>
                     (<[a := set_parent (Some p) c]> (heap s))) s).
Proof.
  intros Ha Hp Hne. unfold con_attach.
  step_update Ha.
  erewrite bind_ok; cycle 1.
  { apply update_ok. simpl. rewrite list_lookup_insert_ne by done. exact Hp. }
  erewrite update_ok; cycle 1.
  { simpl. apply list_lookup_insert_eq. rewrite length_insert.
    now apply lookup_lt_Some in Hp. }
  simpl. unfold set_heap; simpl. rewrite list_insert_insert_eq. reflexivity.
Qed.

Lemma con_detach_ok s a c p pc l1 l2 :
  heap s !! a = Some c -> parent c = Some p -> heap s !! p = Some pc ->
  type c <> CT_FLOATING_CON ->
  TAILQ_REMOVE (nodes_head pc) a = Some l1 ->
  TAILQ_REMOVE (focus_head pc) a = Some l2 ->
  con_detach (Some a) s
  = Ok tt (set_heap (<[p := set_focus_head l2 (set_nodes_head l1 pc)]> (heap s)) s).
Proof.
  intros Ha Hpar Hp Hty H1 H2. unfold con_detach.
  pose proof (lookup_lt_Some _ _ _ Hp) as Hlp.
  step_deref Ha.
  rewrite decide_False by done. rewrite Hpar.
  rewrite (bind_ok _ _ _ _ _ (remove_from_ok _ _ _ _ _ _ _ Hp H1)).
  assert (exists c', heap (set_heap (<[p := set_nodes_head l1 pc]> (heap s)) s) !! a
                     = Some c' /\ parent c' = Some p) as (c' & Hc' & Hpar').
  { simpl. destruct (decide (a = p)) as [->|Hne].
    - rewrite list_lookup_insert_eq by done. eexists; split; [reflexivity|].
      simpl. congruence.
    - rewrite list_lookup_insert_ne by done. eauto. }
  rewrite (bind_ok _ _ _ _ _ (deref_ok _ _ _ Hc')), Hpar'.
  erewrite remove_from_ok; cycle 1.
  { simpl. now apply list_lookup_insert_eq. }
  { simpl. exact H2. }
  unfold set_heap; simpl. rewrite list_insert_insert_eq. reflexivity.
Qed.

Lemma con_detach_floating_ok s a c p pc l1 l2 :
  heap s !! a = Some c -> parent c = Some p -> heap s !! p = Some pc ->
  type c = CT_FLOATING_CON ->
  TAILQ_REMOVE (floating_head pc) a = Some l1 ->
  TAILQ_REMOVE (focus_head pc) a = Some l2 ->
  con_detach (Some a) s
  = Ok tt (set_heap (<[p := set_focus_head l2 (set_floating_head l1 pc)]> (heap s)) s).
Proof.
  intros Ha Hpar Hp Hty H1 H2. unfold con_detach.
  pose proof (lookup_lt_Some _ _ _ Hp) as Hlp.
  step_deref Ha.
  rewrite decide_True by done. rewrite Hpar.
  rewrite (bind_ok _ _ _ _ _ (remove_from_ok _ _ _ _ _ _ _ Hp H1)).
  assert (exists c', heap (set_heap (<[p := set_floating_head l1 pc]> (heap s)) s) !! a
                     = Some c' /\ parent c' = Some p) as (c' & Hc' & Hpar').
  { simpl. destruct (decide (a = p)) as [->|Hne].
    - rewrite list_lookup_insert_eq by done. eexists; split; [reflexivity|].
      simpl. congruence.
    - rewrite list_lookup_insert_ne by done. eauto. }
  rewrite (bind_ok _ _ _ _ _ (deref_ok _ _ _ Hc')), Hpar'.
  erewrite remove_from_ok; cycle 1.
  { simpl. now apply list_lookup_insert_eq. }
  { simpl. exact H2. }
  unfold set_heap; simpl. rewrite list_insert_insert_eq. reflexivity.
Qed.

Lemma con_detach_null_parent s a c :
  heap s !! a = Some c -> parent c = None -> con_detach (Some a) s = Undef.
Proof.
  intros Ha Hpar. unfold con_detach.
  step_deref Ha. rewrite Hpar.
  now destruct (decide _).
Qed.

Lemma con_detach_absent s a c p pc :
  heap s !! a = Some c -> parent c = Some p -> heap s !! p = Some pc ->
  a ∉ expected_list c pc -> con_detach (Some a) s = Undef.
Proof.
  intros Ha Hpar Hp Hx. unfold con_detach, expected_list in *.
  step_deref Ha. rewrite Hpar.
  destruct (decide _); apply bind_undef;
    (eapply remove_from_absent; [exact Hp|]); now apply TAILQ_REMOVE_None.
Qed.

Lemma con_attach_detach_ok s a p c pc :
  heap s !! a = Some c -> heap s !! p = Some pc -> a <> p ->
  type c <> CT_FLOATING_CON ->
  a ∉ nodes_head pc -> a ∉ focus_head pc ->
  exists s1 s2 pc1,
    con_attach (Some a) (Some p) s = Ok tt s1 /\
    heap s1 !! p = Some pc1 /\
    nodes_head pc1 = nodes_head pc ++ [a] /\
    focus_head pc1 = focus_head pc ++ [a] /\
    con_detach (Some a) s1 = Ok tt s2 /\
    heap s2 !! p = Some pc /\
    heap s2 = <[a := set_parent (Some p) c]> (heap s).
Proof.
  intros Ha Hp Hne Hty Hn Hf.
  pose proof (lookup_lt_Some _ _ _ Ha) as Hla.
  pose proof (lookup_lt_Some _ _ _ Hp) as Hlp.
  eexists _, _, _. split; [exact (con_attach_ok _ _ _ _ _ Ha Hp Hne)|].
  split; [simpl; apply list_lookup_insert_eq; now rewrite length_insert|].
  split; [reflexivity|]. split; [reflexivity|].
  erewrite con_detach_ok; cycle 1.
  - simpl. rewrite list_lookup_insert_ne by done. now apply list_lookup_insert_eq.
  - reflexivity.
  - simpl. apply list_lookup_insert_eq. now rewrite length_insert.
  - done.
  - simpl. now apply TAILQ_REMOVE_tail.
  - simpl. now apply TAILQ_REMOVE_tail.
  - simpl. unfold set_heap; simpl. rewrite list_insert_insert_eq.
    assert (set_focus_head (focus_head pc) (set_nodes_head (nodes_head pc)
              (set_focus_head (focus_head pc ++ [a])
                 (set_nodes_head (nodes_head pc ++ [a]) pc))) = pc) as ->
      by now destruct pc.
    assert (<[p := pc]> (<[a := set_parent (Some p) c]> (heap s))
            = <[a := set_parent (Some p) c]> (heap s)) as Hid.
    { apply list_insert_id. now rewrite list_lookup_insert_ne. }
    split; [reflexivity|]. simpl. split; [|exact Hid].
    apply list_lookup_insert_eq. now rewrite length_insert.
Qed.


(** [con_detach] contains no [assert]: whatever it is called on, it does
    not stop with a reported failure. *)
Lemma remove_from_no_assert fld set_fld o x s :
  remove_from fld set_fld o x s <> AssertFail.
Proof.
  unfold remove_from, update, bind, deref, lift_remove, ret, undefined.
  destruct o as [a|]; [|done].
  destruct (heap s !! a); [|done].
  destruct (TAILQ_REMOVE _ x); [|done].
  destruct (heap s !! a); done.
Qed.

Lemma deref_no_assert p s : deref p s <> AssertFail.
Proof. unfold deref. destruct p as [a|]; [|done]. now destruct (heap s !! a). Qed.

Lemma bind_no_assert {A B} (m : M A) (k : A -> M B) s :
  m s <> AssertFail -> (forall a s', k a s' <> AssertFail) -> bind m k s <> AssertFail.
Proof. intros Hm Hk. unfold bind. destruct (m s); first [apply Hk | done]. Qed.

Lemma con_detach_no_assert p s : con_detach p s <> AssertFail.
Proof.
  unfold con_detach. destruct p as [a|]; [|done].
  apply bind_no_assert; [apply deref_no_assert|]. intros c s1.
  destruct (decide _);
    (apply bind_no_assert; [apply remove_from_no_assert|]; intros _ s2;
     apply bind_no_assert; [apply deref_no_assert|]; intros c2 s3;
     apply remove_from_no_assert).
Qed.

(** C8 fails on the root of the sample tree: its parent is [NULL], and the
    call runs into the dereference instead of reporting anything. *)
Lemma con_detach_root_not_reported : ~ detach_reports_violation sample 0.
Proof.
  intros H. specialize (H _ eq_refl (or_introl eq_refl)). vm_compute in H. discriminate H.
Qed.

(** C8, amended.  [con_detach] checks nothing and never reports a contract
    failure.  With a parent, and the node linked in the list its kind
    selects and in the focus order, the call succeeds and unlinks the node
    from both, keeping the order of the others; with a [NULL] parent, or
    the node absent from the selected list, the behaviour is undefined. *)
Theorem con_detach_unchecked s a c :
  heap s !! a = Some c ->
  con_detach (Some a) s <> AssertFail /\
  (parent c = None -> con_detach (Some a) s = Undef) /\
  (forall p pc, parent c = Some p -> heap s !! p = Some pc ->
     a ∉ expected_list c pc -> con_detach (Some a) s = Undef) /\
  (forall p pc, parent c = Some p -> heap s !! p = Some pc ->
     a ∈ expected_list c pc -> a ∈ focus_head pc ->
     exists s' pc' l1 l2 f1 f2,
       con_detach (Some a) s = Ok tt s' /\
       heap s' = <[p := pc']> (heap s) /\
       expected_list c pc = l1 ++ a :: l2 /\ (a ∉ l1) /\
       expected_list c pc' = l1 ++ l2 /\
       focus_head pc = f1 ++ a :: f2 /\ (a ∉ f1) /\
       focus_head pc' = f1 ++ f2).
Proof.
  intros Ha. split; [apply con_detach_no_assert|].
  split; [now apply con_detach_null_parent|].
  split; [intros p pc; now apply con_detach_absent|].
  intros p pc Hpar Hp Hin Hfoc.
  destruct (TAILQ_REMOVE_Some _ _ Hin) as [r1 Hr1].
  destruct (TAILQ_REMOVE_Some _ _ Hfoc) as [r2 Hr2].
  destruct (TAILQ_REMOVE_split _ _ _ Hr1) as (l1 & l2 & El & -> & Hl1).
  destruct (TAILQ_REMOVE_split _ _ _ Hr2) as (f1 & f2 & Ef & -> & Hf1).
  unfold expected_list in *. destruct (decide (type c = CT_FLOATING_CON)) as [Hty|Hty].
  - exists (set_heap (<[p := set_focus_head (f1 ++ f2) (set_floating_head (l1 ++ l2) pc)]>
                       (heap s)) s).
    eexists _, l1, l2, f1, f2.
    split; [now apply con_detach_floating_ok with c|].
    split; [reflexivity|]. now simpl.
  - exists (set_heap (<[p := set_focus_head (f1 ++ f2) (set_nodes_head (l1 ++ l2) pc)]>
                       (heap s)) s).
    eexists _, l1, l2, f1, f2.
    split; [now apply con_detach_ok with c|].
    split; [reflexivity|]. now simpl.
Qed.

Lemma con_detach_unchecked_witness :
  is_Some (heap sample !! 4) /\
  con_detach (Some 4) sample <> AssertFail /\
  exists s' pc', con_detach (Some 4) sample = Ok tt s' /\
    heap s' !! 2 = Some pc' /\ nodes_head pc' = [3; 5] /\ focus_head pc' = [3; 5].
Proof.
  split; [vm_compute; eauto|].
  destruct (con_detach_unchecked sample 4 _ eq_refl) as (Hno & _ & _ & Hok).
  split; [exact Hno|].
  destruct (Hok 2 _ eq_refl eq_refl) as (s' & pc' & l1 & l2 & f1 & f2 & Hrun & Hheap & _).
  - vm_compute. apply list_elem_of_In. simpl. tauto.
  - vm_compute. apply list_elem_of_In. simpl. tauto.
  - vm_compute in Hrun. injection Hrun as <-.
    eexists _, _. split; [reflexivity|]. vm_compute. done.
Defined.

(** ** Creating a container *)

Lemma update_last s h c f :
  heap s = h ++ [c] ->
  update (Some (length h)) f s = Ok tt (set_heap (h ++ [f c]) s).
Proof.
  intros E. erewrite update_ok by (rewrite E; now apply list_lookup_middle).
  rewrite E. do 2 f_equal. rewrite insert_app_r_alt by lia.
  now rewrite Nat.sub_diag.
Qed.

Lemma con_new_unattached s color :
  colors !! cnt s = Some color ->
  con_new None s
  = Ok (Some (length (heap s)))
       (mkState (heap s ++ [fresh_con color None])
                (all_cons s ++ [length (heap s)]) (focused s) (next_cnt (cnt s))
                (trace s ++ [Ev_x_con_init (length (heap s));
                             Ev_change_window_attributes (length (heap s)) color])).
Proof.
  intros Hc. unfold con_new. unfold get at 1, bind at 1. unfold put at 1, bind at 1.
  erewrite bind_ok by (eapply update_last; reflexivity).
  erewrite bind_ok by (eapply update_last; reflexivity).
  rewrite Hc.
  erewrite bind_ok by (eapply update_last; reflexivity).
  unfold get at 1, bind at 1, put at 1, bind at 1.
  unfold x_con_init, xcb_change_window_attributes, emit, bind at 1, bind at 1.
  erewrite bind_ok by (eapply update_last; reflexivity).
  erewrite bind_ok by (eapply update_last; reflexivity).
  erewrite bind_ok by (eapply update_last; reflexivity).
  erewrite bind_ok by (eapply update_last; reflexivity).
  unfold bind, ret. simpl. unfold TAILQ_INSERT_TAIL, next_cnt.
  rewrite <- app_assoc. reflexivity.
Qed.

Lemma con_new_attached s color p pc :
  colors !! cnt s = Some color -> heap s !! p = Some pc ->
  con_new (Some p) s
  = Ok (Some (length (heap s)))
       (mkState (<[p := set_focus_head (focus_head pc ++ [length (heap s)])
                          (set_nodes_head (nodes_head pc ++ [length (heap s)]) pc)]>
                 (heap s ++ [fresh_con color (Some p)]))
                (all_cons s ++ [length (heap s)]) (focused s) (next_cnt (cnt s))
                (trace s ++ [Ev_x_con_init (length (heap s));
                             Ev_change_window_attributes (length (heap s)) color])).
Proof.
  intros Hc Hp. pose proof (lookup_lt_Some _ _ _ Hp) as Hlt.
  unfold con_new. unfold get at 1, bind at 1. unfold put at 1, bind at 1.
  erewrite bind_ok by (eapply update_last; reflexivity).
  erewrite bind_ok by (eapply update_last; reflexivity).
  rewrite Hc.
  erewrite bind_ok by (eapply update_last; reflexivity).
  unfold get at 1, bind at 1, put at 1, bind at 1.
  unfold x_con_init, xcb_change_window_attributes, emit, bind at 1, bind at 1.
  erewrite bind_ok by (eapply update_last; reflexivity).
  erewrite bind_ok by (eapply update_last; reflexivity).
  erewrite bind_ok by (eapply update_last; reflexivity).
  erewrite bind_ok by (eapply update_last; reflexivity).
  erewrite bind_ok; cycle 1.
  { eapply con_attach_ok.
    - simpl. now apply list_lookup_middle.
    - simpl. rewrite lookup_app_l by done. exact Hp.
    - lia. }
  unfold ret. simpl. unfold TAILQ_INSERT_TAIL, next_cnt, set_heap. simpl.
  rewrite <- app_assoc. simpl. f_equal. f_equal.
  rewrite insert_app_r_alt by lia. now rewrite Nat.sub_diag.
Qed.

(** C7 fails already on its first field: the node [con_new] returns is
    named after the colour it was painted with. *)
Lemma con_new_name_is_colour : ~ con_new_defaults sample None.
Proof.
  intros H. specialize (H 10 _ (fresh_con "#ff0000" None) eq_refl eq_refl).
  destruct H as [H _]. discriminate H.
Qed.

(** C7, amended.  [con_new] returns a new container of kind [CT_CON] named
    after the colour [colors[cnt]], with no orientation, no window, not
    fullscreen and not urgent; it is appended to the registry; with a
    parent given, it is attached at the tail of the parent's children and
    of its focus order and no other container changes, and with no parent
    given its parent is [NULL] and no container changes at all. *)
Theorem con_new_result s par color :
  colors !! cnt s = Some color ->
  (forall p, par = Some p -> p < length (heap s)) ->
  exists s',
    con_new par s = Ok (Some (length (heap s))) s' /\
    heap s' !! length (heap s) = Some (fresh_con color par) /\
    all_cons s' = all_cons s ++ [length (heap s)] /\
    length (heap s') = S (length (heap s)) /\
    match par with
    | Some p =>
        exists pc pc', heap s !! p = Some pc /\ heap s' !! p = Some pc' /\
          nodes_head pc' = nodes_head pc ++ [length (heap s)] /\
          focus_head pc' = focus_head pc ++ [length (heap s)] /\
          forall q, q <> p -> q < length (heap s) -> heap s' !! q = heap s !! q
    | None => forall q, q < length (heap s) -> heap s' !! q = heap s !! q
    end.
Proof.
  intros Hc Hpar. destruct par as [p|].
  - specialize (Hpar p eq_refl).
    destruct (lookup_lt_is_Some_2 _ _ Hpar) as [pc Hp].
    eexists. split; [exact (con_new_attached _ _ _ _ Hc Hp)|]. simpl.
    split.
    { rewrite list_lookup_insert_ne by lia. now apply list_lookup_middle. }
    split; [reflexivity|].
    split; [rewrite length_insert, length_app; simpl; lia|].
    eexists pc, _. split; [exact Hp|]. split.
    { apply list_lookup_insert_eq. rewrite length_app. simpl. lia. }
    split; [reflexivity|]. split; [reflexivity|].
    intros q Hq Hlt. rewrite list_lookup_insert_ne by done. now apply lookup_app_l.
  - eexists. split; [exact (con_new_unattached _ _ Hc)|]. simpl.
    split; [now apply list_lookup_middle|].
    split; [reflexivity|].
    split; [rewrite length_app; simpl; lia|].
    intros q Hlt. now apply lookup_app_l.
Qed.

Lemma con_new_result_witness :
  exists s',
    con_new (Some 2) sample = Ok (Some 10) s' /\
    heap s' !! 10 = Some (fresh_con "#ff0000" (Some 2)) /\
    all_cons s' = [0; 1; 2; 3; 4; 5; 6; 7; 8; 9; 10] /\
    exists pc', heap s' !! 2 = Some pc' /\
      nodes_head pc' = [3; 4; 5; 10] /\ focus_head pc' = [3; 4; 5; 10].
Proof.
  destruct (con_new_result sample (Some 2) "#ff0000" eq_refl) as (s' & Hrun & Hnew & Hall & _ & H).
  - intros p [= <-]. vm_compute. lia.
  - destruct H as (pc & pc' & Hpc & Hpc' & Hn & Hf & _).
    exists s'. split; [exact Hrun|]. split; [exact Hnew|]. split; [exact Hall|].
    exists pc'. split; [exact Hpc'|]. injection Hpc as <-. split; [exact Hn|exact Hf].
Defined.

(** C6.  Attaching a fresh node to a parent and detaching it at once gives
    the parent back as it was, and so its children list and its focus
    order, contents and order: the only trace left in the heap is the
    node's own parent field.  This holds for any allocated node that is not
    the parent, is not yet in either list, and is of a kind that
    [con_detach] looks for among the children; and so it holds for the node
    that [con_new] has just returned. *)
Theorem con_attach_detach s p pc :
  heap s !! p = Some pc ->
  (forall a c,
     heap s !! a = Some c -> a <> p -> type c <> CT_FLOATING_CON ->
     a ∉ nodes_head pc -> a ∉ focus_head pc ->
     exists s1 s2 pc1,
       con_attach (Some a) (Some p) s = Ok tt s1 /\
       heap s1 !! p = Some pc1 /\
       nodes_head pc1 = nodes_head pc ++ [a] /\
       focus_head pc1 = focus_head pc ++ [a] /\
       con_detach (Some a) s1 = Ok tt s2 /\
       heap s2 !! p = Some pc /\
       heap s2 = <[a := set_parent (Some p) c]> (heap s)) /\
  (forall color,
     colors !! cnt s = Some color ->
     (forall x, x ∈ nodes_head pc ++ focus_head pc -> x < length (heap s)) ->
     exists a s0 s1 s2 pc1,
       con_new None s = Ok (Some a) s0 /\
       con_attach (Some a) (Some p) s0 = Ok tt s1 /\
       heap s1 !! p = Some pc1 /\
       nodes_head pc1 = nodes_head pc ++ [a] /\
       focus_head pc1 = focus_head pc ++ [a] /\
       con_detach (Some a) s1 = Ok tt s2 /\
       heap s2 !! p = Some pc).
Proof.
  intros Hp. split.
  { intros a c Ha Hne Hty Hn Hf.
    exact (con_attach_detach_ok s a p c pc Ha Hp Hne Hty Hn Hf). }
  intros color Hc Hval. pose proof (lookup_lt_Some _ _ _ Hp) as Hlt.
  set (s0 := mkState (heap s ++ [fresh_con color None])
                     (all_cons s ++ [length (heap s)]) (focused s) (next_cnt (cnt s))
                     (trace s ++ [Ev_x_con_init (length (heap s));
                                  Ev_change_window_attributes (length (heap s)) color])).
  destruct (con_attach_detach_ok s0 (length (heap s)) p (fresh_con color None) pc)
    as (s1 & s2 & pc1 & H1 & H2 & H3 & H4 & H5 & H6 & _).
  - simpl. now apply list_lookup_middle.
  - simpl. now rewrite lookup_app_l.
  - lia.
  - discriminate.
  - intros Hin. specialize (Hval (length (heap s))). rewrite elem_of_app in Hval.
    specialize (Hval (or_introl Hin)). lia.
  - intros Hin. specialize (Hval (length (heap s))). rewrite elem_of_app in Hval.
    specialize (Hval (or_intror Hin)). lia.
  - exists (length (heap s)), s0, s1, s2, pc1.
    split; [now apply con_new_unattached|]. done.
Qed.

Lemma con_attach_detach_witness :
  (exists s1 s2 pc1,
     con_attach (Some 9) (Some 2) sample = Ok tt s1 /\
     heap s1 !! 2 = Some pc1 /\
     nodes_head pc1 = [3; 4; 5; 9] /\
     focus_head pc1 = [3; 4; 5; 9] /\
     con_detach (Some 9) s1 = Ok tt s2 /\
     heap s2 !! 2 = Some (node CT_WORKSPACE (Some 1) [3; 4; 5]) /\
     heap s2 = <[9 := set_parent (Some 2) (node CT_CON None [])]> (heap sample)) /\
  (exists a s0 s1 s2 pc1,
     con_new None sample = Ok (Some a) s0 /\
     con_attach (Some a) (Some 2) s0 = Ok tt s1 /\
     heap s1 !! 2 = Some pc1 /\
     nodes_head pc1 = [3; 4; 5] ++ [a] /\
     focus_head pc1 = [3; 4; 5] ++ [a] /\
     con_detach (Some a) s1 = Ok tt s2 /\
     heap s2 !! 2 = Some (node CT_WORKSPACE (Some 1) [3; 4; 5])).
Proof.
  destruct (con_attach_detach sample 2 (node CT_WORKSPACE (Some 1) [3; 4; 5]) eq_refl)
    as [Hany Hnew].
  split.
  - apply (Hany 9 (node CT_CON None [])); try reflexivity; try done.
    + vm_compute. intros H%list_elem_of_In. simpl in H. intuition lia.
    + vm_compute. intros H%list_elem_of_In. simpl in H. intuition lia.
  - apply (Hnew "#ff0000"); [reflexivity|].
    intros x Hx%list_elem_of_In. vm_compute in Hx |- *. intuition lia.
Defined.

(** A node of the floating kind is attached among the children all the
    same, and [con_detach] then looks for it among the floating windows. *)
Example con_attach_detach_floating :
  let s := set_heap (<[9 := set_type CT_FLOATING_CON (node CT_CON None [])]> sample_heap)
                    sample in
  exists s1, con_attach (Some 9) (Some 2) s = Ok tt s1 /\
             con_detach (Some 9) s1 = Undef.
Proof. eexists. split; reflexivity. Qed.

(** ** Rebalancing the percentages *)













(** ** Looking for an ancestor of a kind *)

Lemma nearest_of_kind_exists s t : forall k p r,
  nth_ancestor s k p = Some r -> type_at s r = Some t ->
  exists j r', j <= k /\ nearest_of_kind s t p j r'.
Proof.
  induction k as [|k IH]; intros p r Hk Ht.
  - exists 0, r. split; [lia|]. split; [exact Hk|]. split; [exact Ht|]. intros; lia.
  - simpl in Hk. destruct p as [a|]; [|done].
    destruct (heap s !! a) as [c|] eqn:Ha; [|done].
    destruct (decide (type c = t)) as [Hc|Hc].
    + exists 0, a. split; [lia|]. split; [reflexivity|].
      split; [unfold type_at; now rewrite Ha, <- Hc|]. intros; lia.
    + destruct (IH _ _ Hk Ht) as (j & r' & Hj & Hn & Hr' & Hmin).
      exists (S j), r'. split; [lia|]. split; [simpl; now rewrite Ha|].
      split; [exact Hr'|]. intros [|i] x Hi Hx.
      * simpl in Hx. injection Hx as <-. unfold type_at. rewrite Ha. simpl. congruence.
      * simpl in Hx. rewrite Ha in Hx. apply (Hmin i); [lia|exact Hx].
Qed.

Lemma walk_up_nearest s t : forall j fuel p r,
  nearest_of_kind s t p j r -> j < fuel ->
  walk_up t fuel p s = Ok (Some r) s.
Proof.
  induction j as [|j IH]; intros fuel p r (Hn & Hr & Hmin) Hfuel;
    (destruct fuel as [|fuel]; [lia|]).
  - simpl in Hn. subst p. unfold type_at in Hr.
    destruct (heap s !! r) as [c|] eqn:Hc; [|done]. injection Hr as Hr.
    simpl. step_deref Hc.
    now rewrite decide_True.
  - simpl in Hn. destruct p as [a|]; [|done].
    destruct (heap s !! a) as [c|] eqn:Ha; [|done].
    simpl. step_deref Ha.
    rewrite decide_False.
    + apply IH; [|lia]. split; [exact Hn|]. split; [exact Hr|].
      intros i x Hi Hx. apply (Hmin (S i)); [lia|]. simpl. now rewrite Ha.
    + intros Hc. apply (Hmin 0 a); [lia|reflexivity|].
      unfold type_at. now rewrite Ha, <- Hc.
Qed.

(** Past the root: every container on the way up is of another kind, and
    the topmost has no parent. *)
Lemma walk_up_past_root s t : forall k fuel p,
  (forall i, i <= k -> exists x c, nth_ancestor s i p = Some x /\
                                  heap s !! x = Some c /\ type c <> t) ->
  nth_ancestor s (S k) p = None -> S k < fuel ->
  walk_up t fuel p s = Ok None s.
Proof.
  induction k as [|k IH]; intros fuel p Hall Hend Hfuel;
    (destruct fuel as [|fuel]; [lia|]).
  - destruct (Hall 0) as (x & c & Hx & Hc & Ht); [lia|]. simpl in Hx. subst p.
    simpl in Hend. rewrite Hc in Hend.
    simpl. step_deref Hc.
    rewrite decide_False by done. rewrite Hend.
    destruct fuel; [lia|reflexivity].
  - destruct (Hall 0) as (x & c & Hx & Hc & Ht); [lia|]. simpl in Hx. subst p.
    simpl. step_deref Hc.
    rewrite decide_False by done.
    apply IH; [| |lia].
    + intros i Hi. destruct (Hall (S i)) as (y & cy & Hy & Hcy & Hty); [lia|].
      simpl in Hy. rewrite Hc in Hy. eauto.
    + change (nth_ancestor s (S (S k)) (Some x) = None) in Hend.
      simpl in Hend. rewrite Hc in Hend. exact Hend.
Qed.

(** C9.  [con_get_workspace] and [con_get_output] walk the parent links
    from the node itself and return the nearest container of their kind:
    whenever some container of that kind is on the way up, the call returns
    the nearest one and its assertion does not fail.  The assertion fails
    when the walk passes the root without meeting the kind. *)
Theorem con_get_ancestor_nearest s a :
  (forall k r fuel,
     nth_ancestor s k (Some a) = Some r -> type_at s r = Some CT_WORKSPACE ->
     k < fuel ->
     exists j r', j <= k /\ nearest_of_kind s CT_WORKSPACE (Some a) j r' /\
                  con_get_workspace fuel (Some a) s = Ok (Some r') s) /\
  (forall k r fuel,
     nth_ancestor s k (Some a) = Some r -> type_at s r = Some CT_OUTPUT ->
     k < fuel ->
     exists j r', j <= k /\ nearest_of_kind s CT_OUTPUT (Some a) j r' /\
                  con_get_output fuel (Some a) s = Ok (Some r') s) /\
  (forall k fuel,
     (forall i, i <= k -> exists x c, nth_ancestor s i (Some a) = Some x /\
                                     heap s !! x = Some c /\ type c <> CT_WORKSPACE) ->
     nth_ancestor s (S k) (Some a) = None -> S k < fuel ->
     con_get_workspace fuel (Some a) s = AssertFail) /\
  (forall k fuel,
     (forall i, i <= k -> exists x c, nth_ancestor s i (Some a) = Some x /\
                                     heap s !! x = Some c /\ type c <> CT_OUTPUT) ->
     nth_ancestor s (S k) (Some a) = None -> S k < fuel ->
     con_get_output fuel (Some a) s = AssertFail).
Proof.
  split_and!.
  - intros k r fuel Hk Hr Hfuel.
    destruct (nearest_of_kind_exists _ _ _ _ _ Hk Hr) as (j & r' & Hj & Hnear).
    exists j, r'. split; [exact Hj|]. split; [exact Hnear|].
    unfold con_get_workspace.
    now rewrite (bind_ok _ _ _ _ _ (walk_up_nearest _ _ j fuel _ _ Hnear ltac:(lia))).
  - intros k r fuel Hk Hr Hfuel.
    destruct (nearest_of_kind_exists _ _ _ _ _ Hk Hr) as (j & r' & Hj & Hnear).
    exists j, r'. split; [exact Hj|]. split; [exact Hnear|].
    unfold con_get_output.
    now rewrite (bind_ok _ _ _ _ _ (walk_up_nearest _ _ j fuel _ _ Hnear ltac:(lia))).
  - intros k fuel Hall Hend Hfuel. unfold con_get_workspace.
    now rewrite (bind_ok _ _ _ _ _ (walk_up_past_root _ _ _ _ _ Hall Hend Hfuel)).
  - intros k fuel Hall Hend Hfuel. unfold con_get_output.
    now rewrite (bind_ok _ _ _ _ _ (walk_up_past_root _ _ _ _ _ Hall Hend Hfuel)).
Qed.

Lemma con_get_ancestor_nearest_witness :
  con_get_workspace 7 (Some 8) sample = Ok (Some 2) sample /\
  con_get_output 7 (Some 8) sample = Ok (Some 1) sample.
Proof.
  destruct (con_get_ancestor_nearest sample 8) as (Hws & Hout & _).
  destruct (Hws 3 2 7 eq_refl eq_refl ltac:(lia)) as (j & r & _ & (Hj & Hr & _) & Hrun).
  destruct (Hout 4 1 7 eq_refl eq_refl ltac:(lia)) as (j' & r' & _ & (Hj' & Hr' & _) & Hrun').
  assert (con_get_workspace 7 (Some 8) sample = Ok (Some 2) sample) as E by reflexivity.
  assert (con_get_output 7 (Some 8) sample = Ok (Some 1) sample) as E' by reflexivity.
  pose proof (eq_trans (eq_sym Hrun) E) as X. injection X as ->.
  pose proof (eq_trans (eq_sym Hrun') E') as X'. injection X' as ->.
  split; [exact Hrun|exact Hrun'].
Defined.

(** ** Levels *)

Section levels.

Variable s : state.

Lemma next_level_app l1 l2 : next_level s (l1 ++ l2) = next_level s l1 ++ next_level s l2.
Proof. unfold next_level. apply flat_map_app. Qed.

Lemma level_nil k : level s k [] = [].
Proof. induction k; simpl; auto. Qed.

Lemma level_app k : forall l1 l2, level s k (l1 ++ l2) = level s k l1 ++ level s k l2.
Proof.
  induction k as [|k IH]; intros l1 l2; simpl; [done|].
  now rewrite next_level_app, IH.
Qed.

Lemma level_add j : forall k l, level s (j + k) l = level s k (level s j l).
Proof. induction j as [|j IH]; intros k l; simpl; [done|]. apply IH. Qed.

Lemma elem_of_level_mono k x y l :
  x ∈ l -> y ∈ level s k [x] -> y ∈ level s k l.
Proof.
  intros (l1 & l2 & ->)%list_elem_of_split Hy.
  change (x :: l2) with ([x] ++ l2). rewrite !level_app, !elem_of_app. auto.
Qed.

Lemma elem_of_level_order n : forall l x,
  x ∈ level_order s n l <-> exists k, k < n /\ x ∈ level s k l.
Proof.
  induction n as [|n IH]; intros l x; simpl.
  - split; [intros H; now apply elem_of_nil in H|intros (k & Hk & _); lia].
  - rewrite elem_of_app, IH. split.
    + intros [H|(k & Hk & H)]; [exists 0; split; [lia|done]|].
      exists (S k). split; [lia|done].
    + intros ([|k] & Hk & H); [now left|]. right. exists k. split; [lia|done].
Qed.

(** A container from which the levels run out is not below itself. *)
Lemma not_own_descendant n c :
  level s n (kids s c) = [] -> c ∉ descendants s n c.
Proof.
  intros Hfin Hc. unfold descendants in Hc.
  apply elem_of_level_order in Hc as (k & Hk & Hc).
  assert (forall j l, level s j (kids s l) = level s (S j) [l]) as Hone.
  { intros j l. simpl. unfold next_level. simpl. now rewrite app_nil_r. }
  rewrite Hone in Hc.
  assert (forall m, c ∈ level s (m * S k) [c]) as Hloop.
  { induction m as [|m IHm]; [simpl; apply list_elem_of_here|].
    replace (S m * S k) with (m * S k + S k) by lia. rewrite level_add.
    eapply elem_of_level_mono; [exact IHm|exact Hc]. }
  specialize (Hloop (S n)).
  replace (S n * S k) with (S n + (S n * S k - S n)) in Hloop by lia.
  rewrite level_add, <- Hone, Hfin, level_nil in Hloop.
  now apply elem_of_nil in Hloop.
Qed.

End levels.

(** ** The breadth-first search *)

Lemma find_app {A} (f : A -> bool) (l1 l2 : list A) :
  find f (l1 ++ l2) = match find f l1 with Some x => Some x | None => find f l2 end.
Proof. induction l1 as [|x l1 IH]; simpl; [done|]. now destruct (f x). Qed.

Lemma find_ext_in {A} (f g : A -> bool) (l : list A) :
  (forall x, x ∈ l -> f x = g x) -> find f l = find g l.
Proof.
  induction l as [|x l IH]; intros H; simpl; [done|].
  rewrite (H x) by left. destruct (g x); [done|]. apply IH. intros y Hy. apply H. now right.
Qed.

Lemma find_none_iff {A} (f : A -> bool) (l : list A) :
  find f l = None <-> forall x, x ∈ l -> f x = false.
Proof.
  induction l as [|x l IH]; simpl.
  - split; [intros _ x Hx; now apply elem_of_nil in Hx|done].
  - destruct (f x) eqn:E.
    + split; [done|]. intros H. specialize (H x ltac:(left)). congruence.
    + rewrite IH. split.
      * intros H y [->|Hy]%elem_of_cons; auto.
      * intros H y Hy. apply H. now right.
Qed.

(** The queue holds what is left of the current row, [a], followed by the
    part of the next row already collected, [b]; the search goes on through
    [a], then through the next row ([b] and the children of [a]) and the
    rows below it. *)
Lemma bfs_loop_level_order s con : forall n a b fuel,
  level s n (b ++ next_level s a) = [] ->
  (forall x, x ∈ a ++ level_order s n (b ++ next_level s a) -> is_Some (heap s !! x)) ->
  length (a ++ level_order s n (b ++ next_level s a)) < fuel ->
  bfs_loop fuel con (map Some (a ++ b)) s
  = Ok (find (bfs_test s con) (a ++ level_order s n (b ++ next_level s a))) s.
Proof.
  induction n as [|n IHn]; induction a as [|p a IHa]; intros b fuel Hfin Hval Hfuel.
  - simpl in *. rewrite app_nil_r in Hfin. subst b.
    destruct fuel; [lia|reflexivity].
  - destruct fuel as [|fuel]; [simpl in Hfuel; lia|].
    destruct (Hval p ltac:(left)) as [cur Hcur].
    simpl. step_deref Hcur.
    unfold bfs_test at 1, is_fullscreen. rewrite Hcur.
    destruct (decide _) as [[H1 H2]|Hno].
    + rewrite !bool_decide_eq_true_2 by done. reflexivity.
    + replace (bool_decide (Some p <> con) && bool_decide (fullscreen_mode cur <> CF_NONE))
        with false; cycle 1.
      { symmetry. apply andb_false_iff. rewrite !bool_decide_eq_false.
        destruct (decide (Some p <> con)); [right|left]; tauto. }
      assert (kids s p = nodes_head cur) as Hk by (unfold kids; now rewrite Hcur).
      rewrite <- Hk, <- map_app, <- app_assoc.
      assert (b ++ next_level s (p :: a) = (b ++ kids s p) ++ next_level s a) as E
        by (simpl; now rewrite app_assoc).
      rewrite E in *. apply IHa; [exact Hfin| |simpl in Hfuel |- *; lia].
      intros x Hx. apply Hval. now right.
  - simpl in Hfin, Hval, Hfuel |- *. rewrite app_nil_r in *.
    specialize (IHn b [] fuel). simpl in IHn. rewrite app_nil_r in IHn.
    apply IHn; [exact Hfin|exact Hval|exact Hfuel].
  - destruct fuel as [|fuel]; [simpl in Hfuel; lia|].
    destruct (Hval p ltac:(left)) as [cur Hcur].
    cbn [app map bfs_loop]. step_deref Hcur.
    cbn [find]. unfold bfs_test at 1, is_fullscreen. rewrite Hcur.
    destruct (decide _) as [[H1 H2]|Hno].
    + rewrite !bool_decide_eq_true_2 by done. reflexivity.
    + replace (bool_decide (Some p <> con) && bool_decide (fullscreen_mode cur <> CF_NONE))
        with false; cycle 1.
      { symmetry. apply andb_false_iff. rewrite !bool_decide_eq_false.
        destruct (decide (Some p <> con)); [right|left]; tauto. }
      assert (kids s p = nodes_head cur) as Hk by (unfold kids; now rewrite Hcur).
      rewrite <- Hk, <- map_app, <- app_assoc.
      assert (b ++ next_level s (p :: a) = (b ++ kids s p) ++ next_level s a) as E
        by (simpl; now rewrite app_assoc).
      rewrite E in *. apply IHa; [exact Hfin| |simpl in Hfuel |- *; lia].
      intros x Hx. apply Hval. now right.
Qed.

Lemma level_1 s c : level s 1 [c] = kids s c.
Proof. simpl. unfold next_level. simpl. apply app_nil_r. Qed.

Lemma level_2 s c : level s 2 [c] = next_level s (kids s c).
Proof. simpl. unfold next_level at 2. simpl. now rewrite app_nil_r. Qed.

Lemma con_get_fullscreen_con_ok s c n fuel :
  level s n (kids s c) = [] ->
  is_Some (heap s !! c) ->
  (forall x, x ∈ descendants s n c -> is_Some (heap s !! x)) ->
  length (descendants s n c) + 1 < fuel ->
  con_get_fullscreen_con fuel (Some c) s
  = Ok (find (is_fullscreen s) (descendants s n c)) s.
Proof.
  intros Hfin Hc Hval Hfuel. unfold con_get_fullscreen_con.
  pose proof (bfs_loop_level_order s (Some c) n [c] [] fuel) as H.
  assert (next_level s [c] = kids s c) as E by (unfold next_level; simpl; apply app_nil_r).
  cbn [app map] in H. rewrite E in H. fold (descendants s n c) in H.
  etrans; [apply H|]; clear H.
  - exact Hfin.
  - intros x [->|Hx]%elem_of_cons; auto.
  - simpl. lia.
  - cbn [find]. unfold bfs_test at 1.
    rewrite bool_decide_eq_false_2 by (intros H; now apply H).
    simpl. f_equal. apply find_ext_in. intros x Hx. unfold bfs_test.
    rewrite bool_decide_eq_true_2; [done|].
    intros [= ->]. now apply (not_own_descendant s n c).
Qed.

(** C3.  Below a container whose subtree is finite, [con_get_fullscreen_con]
    returns the first container in fullscreen mode among the strict
    descendants taken in level order (row by row, each row from left to
    right), and [NULL] when no strict descendant is in fullscreen mode; the
    container itself is not among them.  In particular, when no child is
    in fullscreen mode and some container two levels down is, the result
    is the first such container of that row, whatever is in fullscreen
    mode further down. *)
Theorem con_get_fullscreen_con_level_order s c n fuel :
  level s n (kids s c) = [] ->
  is_Some (heap s !! c) ->
  (forall x, x ∈ descendants s n c -> is_Some (heap s !! x)) ->
  length (descendants s n c) + 1 < fuel ->
  con_get_fullscreen_con fuel (Some c) s
  = Ok (find (is_fullscreen s) (descendants s n c)) s /\
  (c ∉ descendants s n c) /\
  (con_get_fullscreen_con fuel (Some c) s = Ok None s <->
   forall x, x ∈ descendants s n c -> is_fullscreen s x = false) /\
  (forall d2,
     d2 ∈ level s 2 [c] -> is_fullscreen s d2 = true ->
     (forall d1, d1 ∈ level s 1 [c] -> is_fullscreen s d1 = false) ->
     exists r, con_get_fullscreen_con fuel (Some c) s = Ok (Some r) s /\
               find (is_fullscreen s) (level s 2 [c]) = Some r).
Proof.
  intros Hfin Hc Hval Hfuel.
  pose proof (con_get_fullscreen_con_ok s c n fuel Hfin Hc Hval Hfuel) as Hrun.
  split; [exact Hrun|]. split; [now apply not_own_descendant|]. split.
  - rewrite Hrun, <- find_none_iff. split; [now intros [= ->]|now intros ->].
  - intros d2 Hd2 Hfs Hd1. rewrite level_1 in Hd1. rewrite level_2 in Hd2 |- *.
    destruct (find (is_fullscreen s) (next_level s (kids s c))) as [r|] eqn:Hr; cycle 1.
    { rewrite find_none_iff in Hr. rewrite (Hr _ Hd2) in Hfs. discriminate Hfs. }
    exists r. split; [|reflexivity]. rewrite Hrun. do 2 f_equal.
    unfold descendants. destruct n as [|[|n]]; simpl in Hfin |- *.
    + rewrite Hfin in Hd2. now apply elem_of_nil in Hd2.
    + rewrite Hfin in Hd2. now apply elem_of_nil in Hd2.
    + rewrite find_app. apply find_none_iff in Hd1. rewrite Hd1.
      rewrite find_app. now rewrite Hr.
Qed.

Lemma con_get_fullscreen_con_level_order_witness :
  con_get_fullscreen_con 9 (Some 2) sample_fullscreen = Ok (Some 6) sample_fullscreen /\
  (2 ∉ descendants sample_fullscreen 3 2) /\
  is_fullscreen sample_fullscreen 8 = true.
Proof.
  destruct (con_get_fullscreen_con_level_order sample_fullscreen 2 3 9)
    as (Hrun & Hself & _ & Hdepth).
  - reflexivity.
  - vm_compute. eauto.
  - intros x Hx%list_elem_of_In. vm_compute in Hx.
    repeat (destruct Hx as [<-|Hx]; [vm_compute; eauto|]). destruct Hx.
  - vm_compute. lia.
  - split; [exact Hrun|]. split; [exact Hself|reflexivity].
Defined.

(** ** Toggling fullscreen mode *)

Lemma con_get_workspace_ok s p j r fuel :
  nearest_of_kind s CT_WORKSPACE p j r -> j < fuel ->
  con_get_workspace fuel p s = Ok (Some r) s.
Proof.
  intros Hnear Hfuel. unfold con_get_workspace.
  now rewrite (bind_ok _ _ _ _ _ (walk_up_nearest _ _ _ _ _ _ Hnear Hfuel)).
Qed.





(** ** The path to the root *)

Lemma root_path_functional s a l1 : root_path s a l1 ->
  forall l2, root_path s a l2 -> l1 = l2.
Proof.
  induction 1 as [a c Hc Hp|a c p l Hc Hp Hl IH]; intros l2 H2;
    inversion H2; subst; try congruence.
  f_equal. apply IH. congruence.
Qed.

Lemma root_path_suffix s a l : root_path s a l ->
  forall x, x ∈ l -> exists l', root_path s x l' /\ length l' <= length l.
Proof.
  induction 1 as [a c Hc Hp|a c p l Hc Hp Hl IH]; intros x Hx.
  - apply list_elem_of_singleton in Hx as ->. exists [a].
    split; [now apply root_path_root with c|done].
  - apply elem_of_cons in Hx as [->|Hx].
    + exists (a :: l). split; [now apply root_path_step with c p|done].
    + destruct (IH x Hx) as (l' & Hl' & Hlen). exists l'. split; [done|simpl; lia].
Qed.

Lemma root_path_NoDup s a l : root_path s a l -> NoDup l.
Proof.
  induction 1 as [a c Hc Hp|a c p l Hc Hp Hl IH].
  - apply NoDup_singleton.
  - apply NoDup_cons. split; [|exact IH]. intros Ha.
    destruct (root_path_suffix _ _ _ Hl a Ha) as (l' & Hl' & Hlen).
    assert (root_path s a (a :: l)) as Hal by now apply root_path_step with c p.
    rewrite (root_path_functional _ _ _ Hl' _ Hal) in Hlen. simpl in Hlen. lia.
Qed.

Lemma nth_ancestor_None s k : nth_ancestor s k None = None.
Proof. now destruct k. Qed.

Lemma nth_ancestor_on_path s : forall j a l r,
  root_path s a l -> nth_ancestor s j (Some a) = Some r -> l !! j = Some r.
Proof.
  induction j as [|j IH]; intros a l r Hl Hr.
  - simpl in Hr. injection Hr as <-. now destruct Hl.
  - simpl in Hr. destruct Hl as [a c Hc Hp|a c p l Hc Hp Hl]; rewrite Hc, Hp in Hr.
    + now rewrite nth_ancestor_None in Hr.
    + simpl. now apply IH with p.
Qed.

(** ** Frames *)

Lemma keeps_structure_refl c : keeps_structure c c.
Proof. unfold keeps_structure. now destruct c. Qed.

Lemma keeps_structure_trans c1 c2 c3 :
  keeps_structure c1 c2 -> keeps_structure c2 c3 -> keeps_structure c1 c3.
Proof.
  unfold keeps_structure. destruct c1, c2, c3. unfold set_urgent, set_focus_head.
  simpl. intros [= -> -> -> -> -> -> -> -> -> ->] [= -> -> -> -> -> -> -> -> -> ->].
  reflexivity.
Qed.

Lemma keeps_structure_fields c c' : keeps_structure c c' ->
  type c' = type c /\ name c' = name c /\ orientation c' = orientation c /\
  percent c' = percent c /\ window c' = window c /\
  fullscreen_mode c' = fullscreen_mode c /\ parent c' = parent c /\
  nodes_head c' = nodes_head c /\ floating_head c' = floating_head c /\
  swallow_head c' = swallow_head c.
Proof. unfold keeps_structure. intros ->. now destruct c. Qed.

Lemma frame_refl s : frame s s.
Proof.
  repeat split. intros x c Hx. exists c. split; [done|apply keeps_structure_refl].
Qed.

Lemma frame_trans s1 s2 s3 : frame s1 s2 -> frame s2 s3 -> frame s1 s3.
Proof.
  intros (Ha1 & Hc1 & Hl1 & H1) (Ha2 & Hc2 & Hl2 & H2).
  split; [congruence|]. split; [congruence|]. split; [congruence|].
  intros x c Hx. destruct (H1 _ _ Hx) as (c' & Hx' & Hk').
  destruct (H2 _ _ Hx') as (c'' & Hx'' & Hk'').
  exists c''. split; [done|]. now apply keeps_structure_trans with c'.
Qed.

Lemma frame_insert s s' x c c' :
  heap s !! x = Some c -> keeps_structure c c' ->
  heap s' = <[x := c']> (heap s) -> all_cons s' = all_cons s -> cnt s' = cnt s ->
  frame s s'.
Proof.
  intros Hx Hk Hh Ha Hc. split; [done|]. split; [done|].
  split; [rewrite Hh; apply length_insert|].
  intros y cy Hy. rewrite Hh. destruct (decide (x = y)) as [->|Hne].
  - exists c'. rewrite list_lookup_insert_eq by (now apply lookup_lt_Some in Hy).
    split; [done|]. congruence.
  - exists cy. rewrite list_lookup_insert_ne by done.
    split; [done|apply keeps_structure_refl].
Qed.

Lemma frame_lookup_None s s' x : frame s s' -> heap s !! x = None -> heap s' !! x = None.
Proof.
  intros (_ & _ & Hlen & _) Hx. apply lookup_ge_None. apply lookup_ge_None in Hx. lia.
Qed.

Lemma frame_nth_ancestor s s' : frame s s' ->
  forall k p, nth_ancestor s' k p = nth_ancestor s k p.
Proof.
  intros Hf. induction k as [|k IH]; intros p; [done|].
  destruct p as [a|]; [|done]. cbn [nth_ancestor].
  destruct (heap s !! a) as [c|] eqn:Ha.
  - destruct Hf as (_ & _ & _ & H). destruct (H _ _ Ha) as (c' & Hc' & Hk). rewrite Hc'.
    apply keeps_structure_fields in Hk as (_ & _ & _ & _ & _ & _ & -> & _). apply IH.
  - now rewrite (frame_lookup_None _ _ _ Hf Ha).
Qed.

Lemma frame_type_at s s' x : frame s s' -> type_at s' x = type_at s x.
Proof.
  intros Hf. unfold type_at. destruct (heap s !! x) as [c|] eqn:Hc.
  - destruct Hf as (_ & _ & _ & H). destruct (H _ _ Hc) as (c' & Hc' & Hk). rewrite Hc'.
    simpl. now apply keeps_structure_fields in Hk as (-> & _).
  - now rewrite (frame_lookup_None _ _ _ Hf Hc).
Qed.

Lemma frame_nearest_of_kind s s' t p j r :
  frame s s' -> nearest_of_kind s t p j r <-> nearest_of_kind s' t p j r.
Proof.
  intros Hf. unfold nearest_of_kind.
  rewrite (frame_nth_ancestor _ _ Hf), (frame_type_at _ _ _ Hf).
  split; intros (H1 & H2 & H3); (split; [done|split; [done|]]); intros i x Hi Hx.
  - rewrite (frame_type_at _ _ _ Hf). apply (H3 i); [done|].
    now rewrite <- (frame_nth_ancestor _ _ Hf).
  - rewrite <- (frame_type_at _ _ _ Hf). apply (H3 i); [done|].
    now rewrite (frame_nth_ancestor _ _ Hf).
Qed.

Lemma frame_root_path s s' a l : frame s s' -> root_path s a l -> root_path s' a l.
Proof.
  intros (_ & _ & _ & H). induction 1 as [a c Hc Hp|a c p l Hc Hp Hl IH].
  - destruct (H _ _ Hc) as (c' & Hc' & Hk).
    apply keeps_structure_fields in Hk as (_ & _ & _ & _ & _ & _ & Hpar & _).
    apply root_path_root with c'; congruence.
  - destruct (H _ _ Hc) as (c' & Hc' & Hk).
    apply keeps_structure_fields in Hk as (_ & _ & _ & _ & _ & _ & Hpar & _).
    apply root_path_step with c' p; [done|congruence|done].
Qed.

(** ** Focusing *)

Lemma child_on_path_None l x : x ∉ tail l -> child_on_path l x = None.
Proof.
  induction l as [|y l IH]; intros Hx; [reflexivity|].
  destruct l as [|z l]; [reflexivity|].
  cbn [child_on_path]. simpl in Hx. rewrite not_elem_of_cons in Hx. destruct Hx as [Hzx Hx].
  rewrite decide_False by done. now apply IH.
Qed.

Lemma child_on_path_Some l i x y :
  NoDup l -> l !! i = Some x -> l !! S i = Some y -> child_on_path l y = Some x.
Proof.
  revert i. induction l as [|a l IH]; intros i Hnd Hx Hy; [done|].
  destruct l as [|b l].
  - now destruct i.
  - destruct i as [|i].
    + simpl in Hx, Hy. injection Hx as ->. injection Hy as ->.
      cbn [child_on_path]. now rewrite decide_True.
    + cbn [child_on_path]. apply NoDup_cons in Hnd as [Ha Hnd].
      rewrite decide_False.
      * now apply IH with i.
      * intros ->. apply NoDup_cons in Hnd as [Hb _]. apply Hb.
        simpl in Hy. apply list_elem_of_lookup. eauto.
Qed.

Lemma promote_split fl y l1 l2 :
  fl = l1 ++ y :: l2 -> y ∉ l1 -> promote y fl = y :: l1 ++ l2.
Proof.
  intros -> Hy. unfold promote, TAILQ_INSERT_HEAD.
  assert (TAILQ_REMOVE (l1 ++ y :: l2) y = Some (l1 ++ l2)) as ->; [|done].
  induction l1 as [|z l1 IH]; simpl.
  - now rewrite decide_True.
  - rewrite not_elem_of_cons in Hy. destruct Hy as [Hyz Hy].
    rewrite decide_False by done. now rewrite IH.
Qed.

(** The first two statements of [con_focus]: the container moves to the
    head of its parent's focus order. *)
Lemma focus_promote_ok {A} (k : M A) s a p pc :
  heap s !! p = Some pc -> a ∈ focus_head pc ->
  bind (remove_from focus_head set_focus_head (Some p) a)
       (fun _ => bind (update (Some p)
                         (fun q => set_focus_head (TAILQ_INSERT_HEAD (focus_head q) a) q))
                      (fun _ => k)) s
  = k (set_heap (<[p := set_focus_head (promote a (focus_head pc)) pc]> (heap s)) s).
Proof.
  intros Hp Ha. destruct (TAILQ_REMOVE_Some _ _ Ha) as [r Hr].
  rewrite (bind_ok _ _ _ _ _ (remove_from_ok _ _ _ _ _ _ _ Hp Hr)).
  erewrite bind_ok; cycle 1.
  { apply update_ok. simpl. apply list_lookup_insert_eq. now apply lookup_lt_Some in Hp. }
  unfold promote. rewrite Hr. unfold set_heap. simpl. rewrite list_insert_insert_eq.
  reflexivity.
Qed.

(** The last statements of [con_focus]: the focus pointer, and the urgent
    flag with its notification. *)
Lemma focus_finish_ok s a c f :
  heap s !! a = Some c ->
  (urgent c = true -> exists j ws, nearest_of_kind s CT_WORKSPACE (Some a) j ws /\ j < f) ->
  exists s' wss,
    bind (set_focused (Some a))
         (fun _ => bind (deref (Some a))
            (fun c' => if urgent c'
                       then bind (update (Some a) (set_urgent false))
                              (fun _ => bind (con_get_workspace f (Some a))
                                          (fun ws => workspace_update_urgent_flag ws))
                       else ret tt)) s
    = Ok tt s' /\
    heap s' = <[a := set_urgent false c]> (heap s) /\
    all_cons s' = all_cons s /\ cnt s' = cnt s /\ focused s' = Some a /\
    trace s' = trace s ++ map Ev_workspace_update_urgent_flag wss /\
    Forall2 (fun x ws => exists j, nearest_of_kind s CT_WORKSPACE (Some x) j ws)
            (filter (fun x => is_urgent s x = true) [a]) wss.
Proof.
  intros Ha Hws. unfold bind at 1, set_focused.
  erewrite bind_ok by (apply deref_ok; exact Ha).
  assert (is_urgent s a = urgent c) as Hu by (unfold is_urgent; now rewrite Ha).
  destruct (urgent c) eqn:Hc.
  - destruct (Hws eq_refl) as (j & ws & Hnear & Hj).
    erewrite bind_ok by (apply update_ok; exact Ha).
    erewrite bind_ok; cycle 1.
    { apply con_get_workspace_ok with j; [|exact Hj].
      refine (proj1 (frame_nearest_of_kind s _ _ _ _ _ _) Hnear).
      now apply frame_insert with a c (set_urgent false c). }
    eexists _, [ws]. split; [reflexivity|]. simpl.
    split; [done|]. split; [done|]. split; [done|]. split; [done|]. split; [done|].
    rewrite filter_cons_True by done. rewrite filter_nil. repeat constructor. eauto.
  - eexists _, []. split; [reflexivity|]. simpl.
    split. { symmetry. apply list_insert_id. rewrite Ha. f_equal.
             destruct c; simpl in *; now subst. }
    split; [done|]. split; [done|]. split; [done|].
    split; [now rewrite app_nil_r|].
    rewrite filter_cons_False by (rewrite Hu; discriminate). rewrite filter_nil. constructor.
Qed.

Lemma elem_of_removelast {A} (l : list A) x : x ∈ removelast l -> x ∈ l.
Proof.
  induction l as [|y l IH]; [done|]. destruct l as [|z l].
  - simpl. intros H. now apply elem_of_nil in H.
  - cbn [removelast]. intros [->|H]%elem_of_cons; [left|right; now apply IH].
Qed.

Lemma keeps_structure_eq c c' :
  keeps_structure c c' -> urgent c' = urgent c -> focus_head c' = focus_head c -> c' = c.
Proof. unfold keeps_structure. intros -> Hu Hf. simpl in *. rewrite Hu, Hf. now destruct c. Qed.

Lemma linked_focus_of s s' l :
  (forall y, y ∈ tail l -> focus_of s' y = focus_of s y) -> linked s l -> linked s' l.
Proof.
  induction l as [|x l IH]; intros Hy Hl; [done|].
  destruct l as [|y l]; [done|]. destruct Hl as [Hx Hl]. split.
  - rewrite Hy; [done|]. simpl. left.
  - apply IH; [|done]. intros z Hz. apply Hy. simpl in *. now right.
Qed.

(** The state after the promotion of [a] in the focus order of [p]. *)
Lemma promoted_state s a p pc (s1 := set_heap (<[p := set_focus_head (promote a (focus_head pc)) pc]> (heap s)) s) :
  heap s !! p = Some pc ->
  frame s s1 /\
  heap s1 !! p = Some (set_focus_head (promote a (focus_head pc)) pc) /\
  (forall x, x <> p -> heap s1 !! x = heap s !! x) /\
  (forall x, is_urgent s1 x = is_urgent s x) /\
  (forall x, x <> p -> focus_of s1 x = focus_of s x) /\
  trace s1 = trace s.
Proof.
  intros Hp. pose proof (lookup_lt_Some _ _ _ Hp) as Hlt.
  assert (heap s1 !! p = Some (set_focus_head (promote a (focus_head pc)) pc)) as Hp1
    by (simpl; now apply list_lookup_insert_eq).
  assert (forall x, x <> p -> heap s1 !! x = heap s !! x) as Hne
    by (intros x Hx; simpl; now apply list_lookup_insert_ne).
  split.
  { now apply frame_insert with p pc (set_focus_head (promote a (focus_head pc)) pc). }
  split; [exact Hp1|]. split; [exact Hne|]. split; [|split; [|done]].
  - intros x. unfold is_urgent. destruct (decide (x = p)) as [->|Hx].
    + now rewrite Hp1, Hp.
    + now rewrite Hne.
  - intros x Hx. unfold focus_of. now rewrite Hne.
Qed.

(** What the recursive call on the parent does, or its absence when the
    parent is the root. *)
Lemma con_focus_path : forall l' s a c p fuel,
  heap s !! a = Some c -> parent c = Some p -> root_path s p l' ->
  linked s (a :: l') -> urgent_ok s (a :: l') -> length l' + 2 <= fuel ->
  exists s' wss,
    con_focus fuel (Some a) s = Ok tt s' /\ frame s s' /\ focused s' = Some a /\
    (forall x cx cx', heap s !! x = Some cx -> heap s' !! x = Some cx' ->
                      focus_result (a :: l') x cx cx') /\
    trace s' = trace s ++ map Ev_workspace_update_urgent_flag wss /\
    Forall2 (fun x ws => exists j, nearest_of_kind s CT_WORKSPACE (Some x) j ws)
            (filter (fun x => is_urgent s x = true) (rev (removelast (a :: l')))) wss.
Proof.
  induction l' as [|q l'' IH]; intros s a c p fuel Ha Hpar Hpath Hlink Hurg Hfuel;
    [inversion Hpath|].
  assert (q = p) as -> by (now inversion Hpath).
  assert (root_path s a (a :: p :: l'')) as Hapath by now apply root_path_step with c p.
  pose proof (root_path_NoDup _ _ _ Hapath) as Hnd.
  apply NoDup_cons in Hnd as [Hal Hnd]. apply NoDup_cons in Hnd as [Hpl Hnd].
  assert (a <> p) as Hap by (intros ->; apply Hal; left).
  assert (exists pc, heap s !! p = Some pc) as [pc Hp] by (inversion Hpath; eauto).
  destruct fuel as [|f]; [lia|].
  destruct Hlink as [Hafoc Hlink]. unfold focus_of in Hafoc. rewrite Hp in Hafoc.
  cbn [con_focus]. step_deref Ha. rewrite Hpar.
  rewrite (focus_promote_ok _ s a p pc Hp Hafoc).
  destruct (promoted_state s a p pc Hp) as (Hfr1 & Hp1 & Hne1 & Hurg1 & Hfoc1 & Htr1).
  set (s1 := set_heap (<[p := set_focus_head (promote a (focus_head pc)) pc]> (heap s)) s) in *.
  set (pc1 := set_focus_head (promote a (focus_head pc)) pc) in *.
  step_deref Hp1.
  (* the middle: the recursive call, or nothing at the root *)
  assert (exists s2 wss2,
    (match parent pc1 with Some _ => con_focus f (Some p) | None => ret tt end) s1
      = Ok tt s2 /\ frame s1 s2 /\
    (forall x c1 c2, heap s1 !! x = Some c1 -> heap s2 !! x = Some c2 ->
                     focus_result (p :: l'') x c1 c2) /\
    trace s2 = trace s1 ++ map Ev_workspace_update_urgent_flag wss2 /\
    Forall2 (fun x ws => exists j, nearest_of_kind s CT_WORKSPACE (Some x) j ws)
            (filter (fun x => is_urgent s x = true) (rev (removelast (p :: l'')))) wss2)
    as (s2 & wss2 & Hrun2 & Hfr2 & Hres2 & Htr2 & Hws2).
  { inversion Hpath as [p0 pc0 Hp0 Hpar0|p0 pc0 p' l0 Hp0 Hpar0 Hpath']; subst.
    - assert (pc0 = pc) as -> by congruence.
      replace (parent pc1) with (@None nat) by (symmetry; exact Hpar0).
      exists s1, []. split; [reflexivity|]. split; [apply frame_refl|].
      split; [|split; [simpl; now rewrite app_nil_r|constructor]].
      intros x c1 c2 H1 H2. assert (c2 = c1) as -> by congruence.
      split; [apply keeps_structure_refl|]. split; [|reflexivity].
      rewrite decide_False; [done|]. simpl. apply not_elem_of_nil.
    - assert (pc0 = pc) as -> by congruence.
      replace (parent pc1) with (Some p') by (symmetry; exact Hpar0).
      destruct (IH s1 p pc1 p' f) as (s2 & wss2 & Hrun & Hfr & _ & Hres & Htr & Hws).
      + exact Hp1.
      + exact Hpar0.
      + now apply frame_root_path with s.
      + apply linked_focus_of with s; [|exact Hlink].
        intros y Hy. apply Hfoc1. intros ->. now apply Hpl.
      + intros x Hx Hux. rewrite Hurg1 in Hux. destruct (Hurg x) as (j & ws & Hnear).
        * cbn [removelast]. now right.
        * exact Hux.
        * exists j, ws. now apply (frame_nearest_of_kind s s1).
      + simpl in Hfuel. lia.
      + exists s2, wss2. split; [exact Hrun|]. split; [exact Hfr|]. split; [exact Hres|].
        split; [exact Htr|].
        rewrite (list_filter_iff _ (fun x => is_urgent s1 x = true))
          by (intros x; now rewrite Hurg1).
        eapply Forall2_impl; [exact Hws|]. intros x ws [j Hj]. exists j.
        now apply (frame_nearest_of_kind s s1). }
  step_with Hrun2.
  (* the focused container itself is as it was *)
  assert (heap s1 !! a = Some c) as Ha1 by now rewrite Hne1.
  destruct Hfr2 as (Hall2 & Hcnt2 & Hlen2 & Hfr2).
  destruct (Hfr2 _ _ Ha1) as (c2 & Ha2 & Hk2).
  assert (c2 = c) as ->.
  { destruct (Hres2 _ _ _ Ha1 Ha2) as (_ & Hu & Hf). apply keeps_structure_eq; [done| |].
    - rewrite Hu. rewrite decide_False; [done|]. intros H%elem_of_removelast. now apply Hal.
    - rewrite Hf. rewrite child_on_path_None; [done|]. simpl. intros H. apply Hal. now right. }
  assert (frame s s2) as Hfr02.
  { apply frame_trans with s1; [exact Hfr1|]. repeat split; assumption. }
  destruct (focus_finish_ok s2 a c f Ha2) as (s3 & wss3 & Hrun3 & Hh3 & Hall3 & Hcnt3 & Hfo3 & Htr3 & Hws3).
  { intros Hu. destruct (Hurg a) as (j & ws & Hnear).
    - cbn [removelast]. left.
    - unfold is_urgent. now rewrite Ha.
    - exists j, ws. split; [now apply (frame_nearest_of_kind s s2)|].
      destruct Hnear as (Hj & _).
      pose proof (nth_ancestor_on_path _ _ _ _ _ Hapath Hj) as Hl.
      apply lookup_lt_Some in Hl. simpl in Hl, Hfuel. lia. }
  exists s3, (wss2 ++ wss3). split; [exact Hrun3|].
  assert (frame s2 s3) as Hfr23.
  { now apply frame_insert with a c (set_urgent false c). }
  split; [now apply frame_trans with s2|]. split; [exact Hfo3|]. split; [|split].
  - intros x cx cx' Hx Hx'. rewrite Hh3 in Hx'.
    destruct (decide (x = a)) as [->|Hxa].
    + rewrite list_lookup_insert_eq in Hx' by (now apply lookup_lt_Some in Ha2).
      assert (cx = c) as -> by congruence. injection Hx' as <-.
      split; [now unfold keeps_structure; destruct c|]. split.
      * cbn [removelast]. rewrite decide_True; [done|left].
      * now rewrite (child_on_path_None (a :: p :: l'') a).
    + rewrite list_lookup_insert_ne in Hx' by done.
      destruct (decide (x = p)) as [->|Hxp].
      * assert (cx = pc) as -> by congruence.
        destruct (Hres2 _ _ _ Hp1 Hx') as (Hk & Hu & Hf).
        split; [apply keeps_structure_trans with pc1; [|exact Hk];
                unfold keeps_structure, pc1; now destruct pc|].
        split.
        -- rewrite Hu. cbn [removelast]. simpl.
           destruct (decide (p ∈ _)) as [Hin|Hin].
           ++ rewrite decide_True; [done|now right].
           ++ rewrite decide_False; [done|]. rewrite not_elem_of_cons. split; [auto|done].
        -- rewrite Hf. rewrite child_on_path_None by (simpl; exact Hpl).
           cbn [child_on_path]. now rewrite decide_True.
      * assert (heap s1 !! x = Some cx) as Hx1 by now rewrite Hne1.
        destruct (Hres2 _ _ _ Hx1 Hx') as (Hk & Hu & Hf).
        split; [exact Hk|]. split.
        -- rewrite Hu. cbn [removelast].
           destruct (decide (x ∈ _)) as [Hin|Hin].
           ++ rewrite decide_True; [done|now right].
           ++ rewrite decide_False; [done|]. rewrite not_elem_of_cons. split; [auto|done].
        -- rewrite Hf. cbn [child_on_path]. rewrite decide_False by (intros ->; now apply Hxp).
           reflexivity.
  - rewrite Htr3, Htr2, Htr1, map_app. now rewrite app_assoc.
  - cbn [removelast]. cbn [rev]. rewrite filter_app. apply Forall2_app; [exact Hws2|].
    assert (is_urgent s2 a = is_urgent s a) as Hua
      by (unfold is_urgent; now rewrite Ha, Ha2).
    assert (filter (fun x => is_urgent s x = true) [a]
            = filter (fun x => is_urgent s2 x = true) [a]) as ->.
    { rewrite !filter_cons, !filter_nil. rewrite Hua. reflexivity. }
    eapply Forall2_impl; [exact Hws3|]. intros x ws [j Hj]. exists j.
    now apply (frame_nearest_of_kind s s2).
Qed.

Lemma root_path_valid s a l x : root_path s a l -> x ∈ l -> is_Some (heap s !! x).
Proof.
  intros Hl Hx. destruct (root_path_suffix _ _ _ Hl x Hx) as (l' & Hl' & _).
  destruct Hl'; eauto.
Qed.

Lemma linked_lookup s : forall l i x y,
  linked s l -> l !! i = Some x -> l !! S i = Some y -> x ∈ focus_of s y.
Proof.
  induction l as [|a l IH]; intros i x y Hl Hx Hy; [done|].
  destruct l as [|b l]; [now destruct i|]. destruct Hl as [Hab Hl].
  destruct i as [|i].
  - simpl in Hx, Hy. congruence.
  - now apply IH with i.
Qed.




(** The path from [8] to the root of the sample tree. *)
Lemma sample_root_path : root_path sample 7 [7; 4; 2; 1; 0].
Proof.
  eapply root_path_step; [reflexivity..|].
  eapply root_path_step; [reflexivity..|].
  eapply root_path_step; [reflexivity..|].
  eapply root_path_step; [reflexivity..|].
  eapply root_path_root; reflexivity.
Qed.

Lemma sample_linked : linked sample [8; 7; 4; 2; 1; 0].
Proof.
  repeat split; vm_compute; apply list_elem_of_In; simpl; tauto.
Qed.

Lemma sample_urgent_ok : urgent_ok sample [8; 7; 4; 2; 1; 0].
Proof.
  intros x Hx%list_elem_of_In Hu. simpl in Hx.
  destruct Hx as [<-|[<-|[<-|[<-|[<-|[]]]]]]; try discriminate Hu.
  - exists 2, 2. split; [reflexivity|]. split; [reflexivity|].
    intros [|[|i]] x Hi Hx; [| |lia]; vm_compute in Hx; injection Hx as <-; discriminate.
  - exists 1, 2. split; [reflexivity|]. split; [reflexivity|].
    intros [|i] x Hi Hx; [|lia]. vm_compute in Hx. injection Hx as <-. discriminate.
Qed.



(** Outside those conditions: with the urgent flag set on the output, which
    has no workspace above it, the recursive call on the output stops on
    the assertion of [con_get_workspace]. *)
Example con_focus_urgent_output :
  con_focus 8 (Some 3)
    (set_heap (<[1 := set_urgent true (node CT_OUTPUT (Some 0) [2])]> sample_heap) sample)
  = AssertFail.
Proof. reflexivity. Qed.

(** Focusing a container that has no parent dereferences [NULL]. *)
Example con_focus_root : con_focus 8 (Some 0) sample = Undef.
Proof. reflexivity. Qed.

(** ** Looking a container up in the registry *)

Lemma find_some_split {A} (f : A -> bool) (l : list A) x :
  find f l = Some x ->
  exists l1 l2, l = l1 ++ x :: l2 /\ f x = true /\ forall y, y ∈ l1 -> f y = false.
Proof.
  induction l as [|y l IH]; simpl; [done|].
  destruct (f y) eqn:E.
  - intros [= <-]. exists [], l. split; [done|]. split; [done|].
    intros z Hz. now apply elem_of_nil in Hz.
  - intros H. destruct (IH H) as (l1 & l2 & -> & Hx & Hl1).
    exists (y :: l1), l2. split; [done|]. split; [done|].
    intros z [->|Hz]%elem_of_cons; auto.
Qed.

Lemma by_window_id_loop_find s window_id l :
  (forall x, x ∈ l -> x < length (heap s)) ->
  by_window_id_loop window_id l s = Ok (find (has_window_id s window_id) l) s.
Proof.
  induction l as [|x l IH]; intros Hval; [reflexivity|].
  destruct (lookup_lt_is_Some_2 (heap s) x) as [c Hc]; [apply Hval; left|].
  cbn [by_window_id_loop find]. step_deref Hc.
  unfold has_window_id at 1. rewrite Hc.
  destruct (window c) as [w|].
  - destruct (decide (id w = window_id)) as [E|E].
    + now rewrite bool_decide_eq_true_2.
    + rewrite bool_decide_eq_false_2 by done. apply IH. intros y Hy. apply Hval. now right.
  - apply IH. intros y Hy. apply Hval. now right.
Qed.

(** X1.  Over a registry of allocated containers, [con_by_window_id]
    returns the first container, in registry order, whose window has the
    id, and [NULL] exactly when no registered container has such a window;
    it changes nothing. *)
Theorem con_by_window_id_first s window_id :
  (forall x, x ∈ all_cons s -> x < length (heap s)) ->
  exists r,
    con_by_window_id window_id s = Ok r s /\
    match r with
    | Some a =>
        exists l1 l2, all_cons s = l1 ++ a :: l2 /\
          has_window_id s window_id a = true /\
          forall y, y ∈ l1 -> has_window_id s window_id y = false
    | None => forall y, y ∈ all_cons s -> has_window_id s window_id y = false
    end.
Proof.
  intros Hval. exists (find (has_window_id s window_id) (all_cons s)).
  split; [unfold con_by_window_id, get, bind; now apply by_window_id_loop_find|].
  destruct (find _ _) as [a|] eqn:E.
  - now apply find_some_split.
  - now apply find_none_iff.
Qed.

Lemma con_by_window_id_first_witness :
  con_by_window_id 100 sample_windows = Ok (Some 3) sample_windows /\
  has_window_id sample_windows 100 8 = true /\
  con_by_window_id 300 sample_windows = Ok None sample_windows.
Proof.
  assert (forall x, x ∈ all_cons sample_windows -> x < length (heap sample_windows)) as Hval.
  { intros x Hx%list_elem_of_In. vm_compute in Hx |- *. intuition lia. }
  destruct (con_by_window_id_first sample_windows 100 Hval) as (r & Hrun & _).
  destruct (con_by_window_id_first sample_windows 300 Hval) as (r' & Hrun' & _).
  assert (con_by_window_id 100 sample_windows = Ok (Some 3) sample_windows) as E
    by reflexivity.
  assert (con_by_window_id 300 sample_windows = Ok None sample_windows) as E'
    by reflexivity.
  pose proof (eq_trans (eq_sym Hrun) E) as X. injection X as ->.
  pose proof (eq_trans (eq_sym Hrun') E') as X'. injection X' as ->.
  split; [exact Hrun|]. split; [reflexivity|exact Hrun'].
Defined.

(** ** What [con_new] does to a state *)

Lemma con_new_effect s par color :
  colors !! cnt s = Some color ->
  (forall p, par = Some p -> p < length (heap s)) ->
  exists s',
    con_new par s = Ok (Some (length (heap s))) s' /\
    all_cons s' = all_cons s ++ [length (heap s)] /\
    cnt s' = next_cnt (cnt s) /\ focused s' = focused s /\
    length (heap s') = S (length (heap s)) /\
    heap s' !! length (heap s) = Some (fresh_con color par) /\
    forall q c, heap s !! q = Some c ->
      heap s' !! q = Some (if decide (par = Some q) then attached (length (heap s)) c else c).
Proof.
  intros Hc Hpar. destruct par as [p|].
  - specialize (Hpar p eq_refl).
    destruct (lookup_lt_is_Some_2 _ _ Hpar) as [pc Hp].
    eexists. split; [exact (con_new_attached _ _ _ _ Hc Hp)|]. simpl.
    split; [done|]. split; [done|]. split; [done|].
    split; [rewrite length_insert, length_app; simpl; lia|].
    split; [rewrite list_lookup_insert_ne by lia; now apply list_lookup_middle|].
    intros q c Hq. pose proof (lookup_lt_Some _ _ _ Hq) as Hlt.
    destruct (decide (Some p = Some q)) as [[= ->]|Hne].
    + rewrite list_lookup_insert_eq by (rewrite length_app; simpl; lia).
      replace c with pc by congruence. reflexivity.
    + rewrite list_lookup_insert_ne by congruence. now rewrite lookup_app_l.
  - eexists. split; [exact (con_new_unattached _ _ Hc)|]. simpl.
    split; [done|]. split; [done|]. split; [done|].
    split; [rewrite length_app; simpl; lia|].
    split; [now apply list_lookup_middle|].
    intros q c Hq. pose proof (lookup_lt_Some _ _ _ Hq) as Hlt.
    try rewrite decide_False by done. now rewrite lookup_app_l.
Qed.

Lemma next_cnt_lt n : n < length colors -> next_cnt n < length colors.
Proof.
  unfold next_cnt. change (length colors) with 10. intros Hn.
  destruct (decide (S n mod 10 = 0)) as [E|E]; [lia|].
  destruct (decide (S n = 10)) as [E10|]; [|lia]. exfalso. apply E. now rewrite E10.
Qed.

(** X2.  On a state whose registry lists allocated containers without
    repetition, whose counter is inside the colour table and whose focus
    orders match the children, [con_new] with an allocated or absent parent
    returns, the address it returns is new to the registry, and the state
    it leaves has the same three properties: [con_new] can be called
    again. *)
Theorem con_new_keeps_well_formed s par :
  registry_ok s -> cnt s < length colors -> focus_orders_ok s ->
  (forall p, par = Some p -> p < length (heap s)) ->
  exists a s',
    con_new par s = Ok (Some a) s' /\
    (a ∉ all_cons s) /\ heap s !! a = None /\
    registry_ok s' /\ cnt s' < length colors /\ focus_orders_ok s'.
Proof.
  intros [Hnd Hval] Hcnt Hfoc Hpar.
  destruct (lookup_lt_is_Some_2 colors (cnt s) Hcnt) as [color Hc].
  destruct (con_new_effect s par color Hc Hpar)
    as (s' & Hrun & Hall & Hcnt' & _ & Hlen & Hnew & Hold).
  exists (length (heap s)), s'. split; [exact Hrun|].
  assert (length (heap s) ∉ all_cons s) as Hfresh.
  { intros Hin. specialize (Hval _ Hin). lia. }
  split; [exact Hfresh|]. split; [now apply lookup_ge_None|].
  split; [|split].
  - split.
    + rewrite Hall. apply NoDup_app. split; [exact Hnd|]. split.
      * intros x Hx [->|H]%elem_of_cons; [done|now apply elem_of_nil in H].
      * apply NoDup_singleton.
    + intros x. rewrite Hall, Hlen, elem_of_app.
      intros [Hx|Hx%list_elem_of_singleton]; [specialize (Hval _ Hx)|]; lia.
  - rewrite Hcnt'. now apply next_cnt_lt.
  - intros x c' Hx. destruct (heap s !! x) as [c|] eqn:Hsx.
    + rewrite (Hold _ _ Hsx) in Hx. injection Hx as <-.
      specialize (Hfoc _ _ Hsx). destruct (decide _); [|exact Hfoc].
      unfold attached, TAILQ_INSERT_TAIL. simpl. rewrite Hfoc.
      rewrite <- !app_assoc. apply Permutation_app_head, Permutation_app_comm.
    + apply lookup_ge_None in Hsx. pose proof (lookup_lt_Some _ _ _ Hx) as Hlt.
      assert (x = length (heap s)) as -> by lia.
      rewrite Hnew in Hx. injection Hx as <-. reflexivity.
Qed.

Lemma con_new_keeps_well_formed_witness :
  exists a s',
    con_new (Some 2) sample = Ok (Some a) s' /\
    (a ∉ all_cons sample) /\ heap sample !! a = None /\
    registry_ok s' /\ cnt s' < length colors /\ focus_orders_ok s'.
Proof.
  apply (con_new_keeps_well_formed sample (Some 2)).
  - split; [apply (bool_decide_unpack _); vm_compute; exact I|].
    intros x Hx%list_elem_of_In. vm_compute in Hx |- *. intuition lia.
  - vm_compute. lia.
  - intros x c Hx. apply list_elem_of_lookup_2 in Hx as Hin.
    apply list_elem_of_In in Hin. simpl in Hin.
    repeat (destruct Hin as [<-|Hin]; [reflexivity|]). destruct Hin.
  - intros p [= <-]. vm_compute. lia.
Defined.

(** X3.  [con_new] does not disturb the lookup by window id: the container
    it creates has no window and is registered last, so every id is found
    at the same container, or nowhere, as before the call. *)
Theorem con_new_keeps_window_lookup s par window_id :
  (forall x, x ∈ all_cons s -> x < length (heap s)) ->
  cnt s < length colors ->
  (forall p, par = Some p -> p < length (heap s)) ->
  exists a s' r,
    con_new par s = Ok (Some a) s' /\
    con_by_window_id window_id s = Ok r s /\
    con_by_window_id window_id s' = Ok r s' /\
    r <> Some a.
Proof.
  intros Hval Hcnt Hpar.
  destruct (lookup_lt_is_Some_2 colors (cnt s) Hcnt) as [color Hc].
  destruct (con_new_effect s par color Hc Hpar)
    as (s' & Hrun & Hall & _ & _ & Hlen & Hnew & Hold).
  exists (length (heap s)), s', (find (has_window_id s window_id) (all_cons s)).
  split; [exact Hrun|].
  split; [unfold con_by_window_id, get, bind; now apply by_window_id_loop_find|].
  split.
  - unfold con_by_window_id, get, bind. rewrite by_window_id_loop_find; cycle 1.
    { intros x. rewrite Hall, Hlen, elem_of_app.
      intros [Hx|Hx%list_elem_of_singleton]; [specialize (Hval _ Hx)|]; lia. }
    f_equal. rewrite Hall, find_app.
    assert (find (has_window_id s' window_id) (all_cons s)
            = find (has_window_id s window_id) (all_cons s)) as ->.
    { apply find_ext_in. intros x Hx.
      destruct (lookup_lt_is_Some_2 (heap s) x (Hval _ Hx)) as [c Hsx].
      unfold has_window_id. rewrite Hsx, (Hold _ _ Hsx). now destruct (decide _). }
    destruct (find _ (all_cons s)); [done|].
    simpl. unfold has_window_id. now rewrite Hnew.
  - intros E. apply find_some_split in E as (l1 & l2 & Hl & _).
    specialize (Hval (length (heap s))). rewrite Hl, elem_of_app in Hval.
    specialize (Hval ltac:(right; left)). lia.
Qed.

Lemma con_new_keeps_window_lookup_witness :
  exists a s' r,
    con_new (Some 2) sample_windows = Ok (Some a) s' /\
    con_by_window_id 200 sample_windows = Ok r sample_windows /\
    con_by_window_id 200 s' = Ok r s' /\
    r <> Some a.
Proof.
  apply (con_new_keeps_window_lookup sample_windows (Some 2) 200).
  - intros x Hx%list_elem_of_In. vm_compute in Hx |- *. intuition lia.
  - vm_compute. lia.
  - intros p [= <-]. vm_compute. lia.
Defined.

(** ** Finding the container that swallows a window *)

Section matching_facts.

Variable match_matches_window : Match -> i3Window -> bool.

#[local] Abbreviation first_rule := (first_rule match_matches_window).

Lemma swallow_loop_find window l :
  swallow_loop match_matches_window window l
  = find (fun m => match_matches_window m window) l.
Proof. induction l as [|m l IH]; simpl; [done|]. now rewrite IH. Qed.

Lemma for_window_loop_ok s window l :
  (forall x, x ∈ l -> x < length (heap s)) ->
  exists r,
    for_window_loop match_matches_window window l s = Ok r s /\
    match r with
    | (Some a, Some m) =>
        exists l1 l2, l = l1 ++ a :: l2 /\ first_rule s window a = Some m /\
                      forall y, y ∈ l1 -> first_rule s window y = None
    | (None, None) => forall y, y ∈ l -> first_rule s window y = None
    | _ => False
    end.
Proof.
  induction l as [|x l IH]; intros Hval.
  - exists (None, None). split; [reflexivity|]. intros y Hy. now apply elem_of_nil in Hy.
  - destruct (lookup_lt_is_Some_2 (heap s) x) as [c Hc]; [apply Hval; left|].
    cbn [for_window_loop]. step_deref Hc.
    destruct (swallow_loop _ window (swallow_head c)) as [m|] eqn:E.
    + exists (Some x, Some m). split; [reflexivity|]. exists [], l.
      split; [done|]. split; [unfold first_rule; now rewrite Hc|].
      intros y Hy. now apply elem_of_nil in Hy.
    + destruct IH as (r & Hrun & Hr); [intros y Hy; apply Hval; now right|].
      exists r. split; [exact Hrun|].
      assert (first_rule s window x = None) as Hx by (unfold first_rule; now rewrite Hc).
      destruct r as [[a|] [m|]]; try done.
      * destruct Hr as (l1 & l2 & -> & Hm & Hl1). exists (x :: l1), l2.
        split; [done|]. split; [done|]. intros y [->|Hy]%elem_of_cons; auto.
      * intros y [->|Hy]%elem_of_cons; auto.
Qed.

(** X4.  Over a registry of allocated containers, [con_for_window] returns
    the first container, in registry order, that has a swallow rule
    accepting the window, and stores the first such rule of that container,
    in the order of its rule list, when the caller asked for it; a later
    container is not considered, whatever its rules.  It returns [NULL],
    and stores nothing, exactly when no rule of any registered container
    accepts the window.  It changes nothing. *)
Theorem con_for_window_first s window store_match :
  (forall x, x ∈ all_cons s -> x < length (heap s)) ->
  exists con stored,
    con_for_window match_matches_window window store_match s = Ok (con, stored) s /\
    match con with
    | Some a =>
        exists l1 l2 c m1 m2 m,
          all_cons s = l1 ++ a :: l2 /\ heap s !! a = Some c /\
          swallow_head c = m1 ++ m :: m2 /\
          match_matches_window m window = true /\
          (forall m', m' ∈ m1 -> match_matches_window m' window = false) /\
          (forall y cy m', y ∈ l1 -> heap s !! y = Some cy -> m' ∈ swallow_head cy ->
                           match_matches_window m' window = false) /\
          stored = (if store_match then Some m else None)
    | None =>
        (forall y cy m', y ∈ all_cons s -> heap s !! y = Some cy ->
                         m' ∈ swallow_head cy ->
                         match_matches_window m' window = false) /\
        stored = None
    end.
Proof.
  intros Hval. destruct (for_window_loop_ok s window (all_cons s) Hval) as (r & Hrun & Hr).
  exists (fst r), (if store_match then snd r else None). split.
  { unfold con_for_window, get. unfold bind at 1. now step_with Hrun. }
  assert (forall y cy m', first_rule s window y = None -> heap s !! y = Some cy ->
            m' ∈ swallow_head cy -> match_matches_window m' window = false) as Hnone.
  { intros y cy m' Hy Hcy Hm'. unfold first_rule in Hy. rewrite Hcy in Hy.
    rewrite swallow_loop_find in Hy.
    exact (proj1 (find_none_iff _ _) Hy m' Hm'). }
  destruct r as [[a|] [m|]]; try done; simpl.
  - destruct Hr as (l1 & l2 & Hl & Hm & Hl1).
    unfold first_rule in Hm. destruct (heap s !! a) as [c|] eqn:Hc; [|done].
    rewrite swallow_loop_find in Hm.
    apply find_some_split in Hm as (m1 & m2 & Hs & Hmm & Hm1).
    exists l1, l2, c, m1, m2, m. split; [done|]. split; [done|]. split; [done|].
    split; [done|]. split; [done|]. split; [|done].
    intros y cy m' Hy. apply Hnone. now apply Hl1.
  - split; [|now destruct store_match]. intros y cy m' Hy. apply Hnone. now apply Hr.
Qed.

End matching_facts.

Lemma con_for_window_first_witness :
  con_for_window sample_matcher (mkWindow 2) true sample_windows
  = Ok (Some 5, Some 2) sample_windows /\
  con_for_window sample_matcher (mkWindow 3) false sample_windows
  = Ok (Some 6, None) sample_windows /\
  con_for_window sample_matcher (mkWindow 7) true sample_windows
  = Ok (None, None) sample_windows.
Proof.
  assert (forall x, x ∈ all_cons sample_windows -> x < length (heap sample_windows)) as Hval.
  { intros x Hx%list_elem_of_In. vm_compute in Hx |- *. intuition lia. }
  destruct (con_for_window_first sample_matcher sample_windows (mkWindow 2) true Hval)
    as (c1 & st1 & H1 & _).
  destruct (con_for_window_first sample_matcher sample_windows (mkWindow 3) false Hval)
    as (c2 & st2 & H2 & _).
  destruct (con_for_window_first sample_matcher sample_windows (mkWindow 7) true Hval)
    as (c3 & st3 & H3 & _).
  assert (con_for_window sample_matcher (mkWindow 2) true sample_windows
          = Ok (Some 5, Some 2) sample_windows) as E1 by reflexivity.
  assert (con_for_window sample_matcher (mkWindow 3) false sample_windows
          = Ok (Some 6, None) sample_windows) as E2 by reflexivity.
  assert (con_for_window sample_matcher (mkWindow 7) true sample_windows
          = Ok (None, None) sample_windows) as E3 by reflexivity.
  pose proof (eq_trans (eq_sym H1) E1) as X1. injection X1 as -> ->.
  pose proof (eq_trans (eq_sym H2) E2) as X2. injection X2 as -> ->.
  pose proof (eq_trans (eq_sym H3) E3) as X3. injection X3 as -> ->.
  split; [exact H1|]. split; [exact H2|exact H3].
Defined.

(** ** Leaves, and containers that take a window *)

(** X5.  The container [con_new] returns is a leaf and accepts a window;
    the parent it was attached to is not a leaf any more. *)
Theorem con_new_leaf_accepts s par :
  cnt s < length colors ->
  (forall p, par = Some p -> p < length (heap s)) ->
  exists a s',
    con_new par s = Ok (Some a) s' /\
    con_is_leaf (Some a) s' = Ok true s' /\
    con_accepts_window (Some a) s' = Ok true s' /\
    (forall p, par = Some p -> con_is_leaf (Some p) s' = Ok false s').
Proof.
  intros Hcnt Hpar.
  destruct (lookup_lt_is_Some_2 colors (cnt s) Hcnt) as [color Hc].
  destruct (con_new_effect s par color Hc Hpar)
    as (s' & Hrun & _ & _ & _ & _ & Hnew & Hold).
  exists (length (heap s)), s'. split; [exact Hrun|].
  split; [unfold con_is_leaf; now step_deref Hnew|].
  split; [unfold con_accepts_window; now step_deref Hnew|].
  intros p ->. destruct (lookup_lt_is_Some_2 (heap s) p (Hpar p eq_refl)) as [pc Hp].
  pose proof (Hold _ _ Hp) as Hp'. rewrite decide_True in Hp' by done.
  unfold con_is_leaf. step_deref Hp'. unfold attached, TAILQ_INSERT_TAIL. simpl.
  now destruct (nodes_head pc).
Qed.

Lemma con_new_leaf_accepts_witness :
  exists a s',
    con_new (Some 3) sample = Ok (Some a) s' /\
    con_is_leaf (Some 3) sample = Ok true sample /\
    con_is_leaf (Some a) s' = Ok true s' /\
    con_accepts_window (Some a) s' = Ok true s' /\
    con_is_leaf (Some 3) s' = Ok false s'.
Proof.
  destruct (con_new_leaf_accepts sample (Some 3)) as (a & s' & Hrun & Hleaf & Hacc & Hpar).
  - vm_compute. lia.
  - intros p [= <-]. vm_compute. lia.
  - exists a, s'. split; [exact Hrun|]. split; [reflexivity|].
    split; [exact Hleaf|]. split; [exact Hacc|]. now apply Hpar.
Defined.

(** ** The focus orders follow the children *)

Lemma promote_perm y fl : promote y fl ≡ₚ fl.
Proof.
  unfold promote. destruct (TAILQ_REMOVE fl y) as [r|] eqn:E; [|done].
  destruct (TAILQ_REMOVE_split _ _ _ E) as (l1 & l2 & -> & -> & _).
  unfold TAILQ_INSERT_HEAD. apply Permutation_middle.
Qed.

Lemma focus_orders_ok_insert s s' p pc pc' :
  focus_orders_ok s -> heap s !! p = Some pc ->
  heap s' = <[p := pc']> (heap s) ->
  focus_head pc' ≡ₚ nodes_head pc' ++ floating_head pc' ->
  focus_orders_ok s'.
Proof.
  intros Hok Hp Hh Hpc' x c Hx. rewrite Hh in Hx.
  destruct (decide (x = p)) as [->|Hne].
  - rewrite list_lookup_insert_eq in Hx by (now apply lookup_lt_Some in Hp).
    now injection Hx as <-.
  - rewrite list_lookup_insert_ne in Hx by done. now apply Hok with x.
Qed.

(** X6.  When [con_detach] succeeds, the focus orders still match the
    children and floating windows in the state it leaves.  It neither
    unregisters the container nor clears its parent field: a detached
    container still points at the parent that no longer lists it. *)
Theorem con_detach_keeps_focus_orders s a c p pc :
  heap s !! a = Some c -> parent c = Some p -> heap s !! p = Some pc ->
  a ∈ expected_list c pc -> a ∈ focus_head pc -> focus_orders_ok s ->
  exists s',
    con_detach (Some a) s = Ok tt s' /\
    focus_orders_ok s' /\
    all_cons s' = all_cons s /\
    (a <> p -> heap s' !! a = Some c) /\
    (forall pc', heap s' !! p = Some pc' -> count_occ Nat.eq_dec (focus_head pc') a
                 = pred (count_occ Nat.eq_dec (focus_head pc) a)).
Proof.
  intros Ha Hpar Hp Hin Hfoc Hok.
  destruct (TAILQ_REMOVE_Some _ _ Hin) as [r1 Hr1].
  destruct (TAILQ_REMOVE_Some _ _ Hfoc) as [r2 Hr2].
  destruct (TAILQ_REMOVE_split _ _ _ Hr1) as (l1 & l2 & El & -> & Hl1).
  destruct (TAILQ_REMOVE_split _ _ _ Hr2) as (f1 & f2 & Ef & -> & Hf1).
  pose proof (Hok _ _ Hp) as Hperm. rewrite Ef in Hperm.
  pose proof (lookup_lt_Some _ _ _ Hp) as Hlt.
  assert (count_occ Nat.eq_dec (f1 ++ f2) a
          = pred (count_occ Nat.eq_dec (focus_head pc) a)) as Hcount.
  { rewrite Ef, !count_occ_app. simpl. destruct (Nat.eq_dec a a); [lia|done]. }
  unfold expected_list in *. destruct (decide (type c = CT_FLOATING_CON)) as [Hty|Hty].
  - eexists. split; [exact (con_detach_floating_ok _ _ _ _ _ _ _ Ha Hpar Hp Hty Hr1 Hr2)|].
    split; [|split; [done|split]].
    + eapply focus_orders_ok_insert; [exact Hok|exact Hp|reflexivity|]. simpl.
      rewrite El, app_assoc in Hperm. rewrite app_assoc.
      exact (Permutation_app_inv _ _ _ _ _ Hperm).
    + intros Hne. simpl. now rewrite list_lookup_insert_ne.
    + intros pc'. simpl. rewrite list_lookup_insert_eq by done. now intros [= <-].
  - eexists. split; [exact (con_detach_ok _ _ _ _ _ _ _ Ha Hpar Hp Hty Hr1 Hr2)|].
    split; [|split; [done|split]].
    + eapply focus_orders_ok_insert; [exact Hok|exact Hp|reflexivity|]. simpl.
      rewrite El, <- app_assoc in Hperm. simpl in Hperm. rewrite <- app_assoc.
      exact (Permutation_app_inv _ _ _ _ _ Hperm).
    + intros Hne. simpl. now rewrite list_lookup_insert_ne.
    + intros pc'. simpl. rewrite list_lookup_insert_eq by done. now intros [= <-].
Qed.

Lemma con_detach_keeps_focus_orders_witness :
  exists s',
    con_detach (Some 4) sample = Ok tt s' /\
    focus_orders_ok s' /\
    all_cons s' = all_cons sample /\
    (parent <$> heap s' !! 4) = Some (Some 2) /\
    focus_of s' 2 = [3; 5].
Proof.
  destruct (con_detach_keeps_focus_orders sample 4 _ 2 _ eq_refl eq_refl eq_refl)
    as (s' & Hrun & Hok & Hall & Hself & _).
  - vm_compute. apply list_elem_of_In. simpl. tauto.
  - vm_compute. apply list_elem_of_In. simpl. tauto.
  - intros x c Hx. apply list_elem_of_lookup_2 in Hx as Hin.
    apply list_elem_of_In in Hin. simpl in Hin.
    repeat (destruct Hin as [<-|Hin]; [reflexivity|]). destruct Hin.
  - exists s'. split; [exact Hrun|]. split; [exact Hok|]. split; [exact Hall|].
    split; [now rewrite Hself|].
    vm_compute in Hrun. injection Hrun as <-. reflexivity.
Defined.

(** ** More on focusing *)

(** X7.  [con_focus] only reorders: in the state it leaves, every focus
    order is a permutation of what it was, so focus orders that matched the
    children and floating windows still do, and the registry is as it
    was. *)
Theorem con_focus_keeps_focus_orders s a c p l' fuel :
  heap s !! a = Some c -> parent c = Some p -> root_path s p l' ->
  linked s (a :: l') -> urgent_ok s (a :: l') -> length l' + 2 <= fuel ->
  exists s',
    con_focus fuel (Some a) s = Ok tt s' /\
    (forall x cx, heap s !! x = Some cx ->
       exists cx', heap s' !! x = Some cx' /\ focus_head cx' ≡ₚ focus_head cx) /\
    (focus_orders_ok s -> focus_orders_ok s') /\
    all_cons s' = all_cons s /\ (registry_ok s -> registry_ok s').
Proof.
  intros Ha Hpar Hpath Hlink Hurg Hfuel.
  destruct (con_focus_path l' s a c p fuel Ha Hpar Hpath Hlink Hurg Hfuel)
    as (s' & wss & Hrun & (Hall & _ & Hlen & Hfr) & _ & Hres & _).
  exists s'. split; [exact Hrun|].
  assert (forall x cx, heap s !! x = Some cx ->
            exists cx', heap s' !! x = Some cx' /\ focus_head cx' ≡ₚ focus_head cx /\
                        keeps_structure cx cx') as Hperm.
  { intros x cx Hx. destruct (Hfr _ _ Hx) as (cx' & Hx' & Hk).
    exists cx'. split; [done|]. split; [|done].
    destruct (Hres _ _ _ Hx Hx') as (_ & _ & ->).
    destruct (child_on_path _ _); [apply promote_perm|done]. }
  split; [|split; [|split; [exact Hall|]]].
  - intros x cx Hx. destruct (Hperm _ _ Hx) as (cx' & Hx' & Hp & _). eauto.
  - intros Hok x cx' Hx'.
    destruct (lookup_lt_is_Some_2 (heap s) x) as [cx Hx].
    { rewrite <- Hlen. now apply lookup_lt_Some in Hx'. }
    destruct (Hperm _ _ Hx) as (cx'' & Hx'' & Hp & Hk).
    assert (cx'' = cx') as -> by congruence.
    apply keeps_structure_fields in Hk as (_ & _ & _ & _ & _ & _ & _ & -> & -> & _).
    rewrite Hp. now apply Hok with x.
  - intros [Hnd Hval]. split; rewrite Hall; [done|]. intros x Hx. rewrite Hlen. auto.
Qed.

Lemma sample_focus_orders_ok : focus_orders_ok sample.
Proof.
  intros x c Hx. apply list_elem_of_lookup_2 in Hx as Hin.
  apply list_elem_of_In in Hin. simpl in Hin.
  repeat (destruct Hin as [<-|Hin]; [reflexivity|]). destruct Hin.
Qed.

Lemma con_focus_keeps_focus_orders_witness :
  exists s',
    con_focus 8 (Some 8) sample = Ok tt s' /\
    focus_orders_ok s' /\ focus_of s' 2 = [4; 3; 5] /\ kids s' 2 = [3; 4; 5].
Proof.
  destruct (con_focus_keeps_focus_orders sample 8 (node CT_CON (Some 7) []) 7
              [7; 4; 2; 1; 0] 8 eq_refl eq_refl sample_root_path sample_linked
              sample_urgent_ok)
    as (s' & Hrun & _ & Hok & _).
  - simpl. lia.
  - exists s'. split; [exact Hrun|]. split; [exact (Hok sample_focus_orders_ok)|].
    vm_compute in Hrun. injection Hrun as <-. split; reflexivity.
Defined.




Lemma promote_elem y fl : y ∈ fl -> y ∈ promote y fl.
Proof.
  intros [r Hr]%TAILQ_REMOVE_Some. unfold promote. rewrite Hr. left.
Qed.

Lemma linked_by_index s : forall l,
  (forall i x y, l !! i = Some x -> l !! S i = Some y -> x ∈ focus_of s y) ->
  linked s l.
Proof.
  induction l as [|a l IH]; intros H; [done|]. destruct l as [|b l]; [done|].
  split; [now apply (H 0)|]. apply IH. intros i x y Hx Hy. now apply (H (S i)).
Qed.




(** ** More on fullscreen mode *)

Lemma con_toggle_fullscreen_set_exact s a c m :
  heap s !! a = Some c ->
  bind (update (Some a) (set_fullscreen_mode m)) (fun _ => push_net_wm_state (Some a)) s
  = Ok tt (toggled s a c m).
Proof.
  intros Ha. step_update Ha. unfold push_net_wm_state.
  erewrite bind_ok; cycle 1.
  { apply deref_ok. simpl. apply list_lookup_insert_eq. now apply lookup_lt_Some in Ha. }
  unfold toggled, window_event. destruct (window (set_fullscreen_mode m c)).
  - reflexivity.
  - unfold ret, set_heap. simpl. now rewrite app_nil_r.
Qed.

Lemma con_toggle_fullscreen_off s a c fuel :
  heap s !! a = Some c -> fullscreen_mode c <> CF_NONE ->
  con_toggle_fullscreen fuel (Some a) s = Ok tt (toggled s a c CF_NONE).
Proof.
  intros Ha Hfs. unfold con_toggle_fullscreen. step_deref Ha.
  rewrite decide_False by done. now apply con_toggle_fullscreen_set_exact.
Qed.

(** The search that guards the way into fullscreen mode. *)
Lemma con_toggle_fullscreen_guard s a c fuel j ws n :
  heap s !! a = Some c -> fullscreen_mode c = CF_NONE ->
  nearest_of_kind s CT_WORKSPACE (Some a) j ws -> j < fuel ->
  level s n (kids s ws) = [] ->
  (forall x, x ∈ descendants s n ws -> is_Some (heap s !! x)) ->
  length (descendants s n ws) + 1 < fuel ->
  con_toggle_fullscreen fuel (Some a) s
  = match find (is_fullscreen s) (descendants s n ws) with
    | Some _ => Ok tt s
    | None => Ok tt (toggled s a c CF_OUTPUT)
    end.
Proof.
  intros Ha Hfs Hnear Hj Hfin Hval Hfuel.
  assert (is_Some (heap s !! ws)) as Hws.
  { destruct Hnear as (_ & Ht & _). unfold type_at in Ht.
    destruct (heap s !! ws); [eauto|done]. }
  unfold con_toggle_fullscreen. step_deref Ha. rewrite decide_True by done.
  rewrite (bind_ok _ _ _ _ _ (con_get_workspace_ok _ _ _ _ _ Hnear Hj)).
  rewrite (bind_ok _ _ _ _ _ (con_get_fullscreen_con_ok _ _ _ _ Hfin Hws Hval Hfuel)).
  destruct (find _ _); [reflexivity|]. now apply con_toggle_fullscreen_set_exact.
Qed.

(** X9.  [con_toggle_fullscreen] tells the client exactly when it changed
    the mode of a container that has a window: one [_NET_WM_STATE] update
    for that window, with the fullscreen atom on the way in and with no
    atom on the way out.  For a container without a window, and for a
    toggle that another fullscreen container blocks, nothing is sent. *)
Theorem con_toggle_fullscreen_tells_client s a c fuel :
  heap s !! a = Some c ->
  (fullscreen_mode c <> CF_NONE ->
   exists s', con_toggle_fullscreen fuel (Some a) s = Ok tt s' /\
     trace s' = trace s ++ match window c with
                           | Some w => [Ev_change_property (id w) []]
                           | None => []
                           end) /\
  (fullscreen_mode c = CF_NONE ->
   forall j ws n,
     nearest_of_kind s CT_WORKSPACE (Some a) j ws -> j < fuel ->
     level s n (kids s ws) = [] ->
     (forall x, x ∈ descendants s n ws -> is_Some (heap s !! x)) ->
     length (descendants s n ws) + 1 < fuel ->
     exists s', con_toggle_fullscreen fuel (Some a) s = Ok tt s' /\
       trace s' = trace s ++
         match find (is_fullscreen s) (descendants s n ws), window c with
         | None, Some w => [Ev_change_property (id w) ["_NET_WM_STATE_FULLSCREEN"]]
         | _, _ => []
         end).
Proof.
  intros Ha. split.
  - intros Hfs. eexists. split; [exact (con_toggle_fullscreen_off s a c fuel Ha Hfs)|].
    unfold toggled, window_event. simpl. now destruct (window c).
  - intros Hfs j ws n Hnear Hj Hfin Hval Hfuel.
    rewrite (con_toggle_fullscreen_guard s a c fuel j ws n) by done.
    destruct (find _ _).
    + exists s. split; [done|]. now rewrite app_nil_r.
    + eexists. split; [reflexivity|]. unfold toggled, window_event. simpl.
      now destruct (window c).
Qed.

Lemma con_toggle_fullscreen_tells_client_witness :
  exists s1 s2,
    con_toggle_fullscreen 9 (Some 3) sample_windows = Ok tt s1 /\
    trace s1 = [Ev_change_property 100 ["_NET_WM_STATE_FULLSCREEN"]] /\
    con_toggle_fullscreen 9 (Some 3) s1 = Ok tt s2 /\
    trace s2 = [Ev_change_property 100 ["_NET_WM_STATE_FULLSCREEN"];
                Ev_change_property 100 []].
Proof.
  destruct (con_toggle_fullscreen_tells_client sample_windows 3 _ 9 eq_refl) as [_ Hon].
  destruct (Hon eq_refl 1 2 3) as (s1 & Hrun1 & Htr1).
  - split; [reflexivity|]. split; [reflexivity|].
    intros [|i] x Hi Hx; [|lia]. injection Hx as <-. vm_compute. discriminate.
  - lia.
  - reflexivity.
  - intros x Hx%list_elem_of_In. vm_compute in Hx.
    repeat (destruct Hx as [<-|Hx]; [vm_compute; eauto|]). destruct Hx.
  - vm_compute. lia.
  - pose proof Hrun1 as Hs1. vm_compute in Hs1. injection Hs1 as Hs1.
    destruct (con_toggle_fullscreen_tells_client s1 3
                (set_fullscreen_mode CF_OUTPUT
                   (set_window (Some (mkWindow 100)) (node CT_CON (Some 2) []))) 9)
      as [Hoff _]; [now rewrite <- Hs1|].
    destruct Hoff as (s2 & Hrun2 & Htr2); [discriminate|].
    exists s1, s2. split; [exact Hrun1|]. split; [exact Htr1|]. split; [exact Hrun2|].
    rewrite Htr2, Htr1. reflexivity.
Defined.

(** Setting a mode leaves the shape of the tree alone. *)
Lemma toggled_kids s a c m x : heap s !! a = Some c -> kids (toggled s a c m) x = kids s x.
Proof.
  intros Ha. unfold kids, toggled. simpl. destruct (decide (x = a)) as [->|Hne].
  - rewrite list_lookup_insert_eq by (now apply lookup_lt_Some in Ha). now rewrite Ha.
  - now rewrite list_lookup_insert_ne.
Qed.

Lemma level_order_kids_ext s s' :
  (forall x, kids s' x = kids s x) ->
  forall n l, level s' n l = level s n l /\ level_order s' n l = level_order s n l.
Proof.
  intros Hk.
  assert (forall l, next_level s' l = next_level s l) as Hnl.
  { intros l. unfold next_level. apply flat_map_ext. intros x. apply Hk. }
  induction n as [|n IH]; intros l; [done|]. simpl. rewrite Hnl.
  destruct (IH (next_level s l)) as [-> ->]. done.
Qed.

Lemma toggled_descendants s a c m n ws :
  heap s !! a = Some c ->
  descendants (toggled s a c m) n ws = descendants s n ws /\
  level (toggled s a c m) n (kids (toggled s a c m) ws) = level s n (kids s ws).
Proof.
  intros Ha. unfold descendants. rewrite (toggled_kids s a c m ws Ha).
  destruct (level_order_kids_ext s (toggled s a c m)
              (fun x => toggled_kids s a c m x Ha) n (kids s ws)) as [-> ->].
  done.
Qed.

Lemma toggled_is_fullscreen s a c m x :
  heap s !! a = Some c ->
  is_fullscreen (toggled s a c m) x
  = if decide (x = a) then bool_decide (m <> CF_NONE) else is_fullscreen s x.
Proof.
  intros Ha. unfold is_fullscreen, toggled. simpl. destruct (decide (x = a)) as [->|Hne].
  - now rewrite list_lookup_insert_eq by (now apply lookup_lt_Some in Ha).
  - now rewrite list_lookup_insert_ne.
Qed.

Lemma toggled_valid s a c m x :
  is_Some (heap s !! x) -> is_Some (heap (toggled s a c m) !! x).
Proof.
  intros H. apply lookup_lt_is_Some. simpl. rewrite length_insert.
  now apply lookup_lt_is_Some.
Qed.

(** X10.  Into fullscreen mode and out again: two calls of
    [con_toggle_fullscreen] on a container that was free to enter leave the
    heap as it was before the first. *)
Theorem con_toggle_fullscreen_twice s a c fuel j ws n :
  heap s !! a = Some c -> fullscreen_mode c = CF_NONE ->
  nearest_of_kind s CT_WORKSPACE (Some a) j ws -> j < fuel ->
  level s n (kids s ws) = [] ->
  (forall x, x ∈ descendants s n ws -> is_Some (heap s !! x)) ->
  length (descendants s n ws) + 1 < fuel ->
  (forall x, x ∈ descendants s n ws -> is_fullscreen s x = false) ->
  exists s1 s2,
    con_toggle_fullscreen fuel (Some a) s = Ok tt s1 /\
    is_fullscreen s1 a = true /\
    con_toggle_fullscreen fuel (Some a) s1 = Ok tt s2 /\
    heap s2 = heap s.
Proof.
  intros Ha Hfs Hnear Hj Hfin Hval Hfuel Hnone.
  pose proof (lookup_lt_Some _ _ _ Ha) as Hlt.
  exists (toggled s a c CF_OUTPUT),
         (toggled (toggled s a c CF_OUTPUT) a (set_fullscreen_mode CF_OUTPUT c) CF_NONE).
  split.
  { rewrite (con_toggle_fullscreen_guard s a c fuel j ws n) by done.
    apply find_none_iff in Hnone. now rewrite Hnone. }
  split; [rewrite toggled_is_fullscreen by done; now rewrite decide_True|].
  split.
  { apply con_toggle_fullscreen_off; [|discriminate].
    simpl. now apply list_lookup_insert_eq. }
  simpl. rewrite list_insert_insert_eq. apply list_insert_id.
  rewrite Ha. f_equal. destruct c; simpl in *. now subst.
Qed.

Lemma sample_workspace_of_5 : nearest_of_kind sample CT_WORKSPACE (Some 5) 1 2.
Proof.
  split; [reflexivity|]. split; [reflexivity|].
  intros [|i] x Hi Hx; [|lia]. injection Hx as <-. vm_compute. discriminate.
Qed.

Lemma sample_descendants_valid :
  forall x, x ∈ descendants sample 3 2 -> is_Some (heap sample !! x).
Proof.
  intros x Hx%list_elem_of_In. vm_compute in Hx.
  repeat (destruct Hx as [<-|Hx]; [vm_compute; eauto|]). destruct Hx.
Qed.

Lemma sample_none_fullscreen :
  forall x, x ∈ descendants sample 3 2 -> is_fullscreen sample x = false.
Proof.
  intros x Hx%list_elem_of_In. vm_compute in Hx.
  repeat (destruct Hx as [<-|Hx]; [reflexivity|]). destruct Hx.
Qed.

Lemma con_toggle_fullscreen_twice_witness :
  exists s1 s2,
    con_toggle_fullscreen 9 (Some 5) sample = Ok tt s1 /\
    is_fullscreen s1 5 = true /\
    con_toggle_fullscreen 9 (Some 5) s1 = Ok tt s2 /\
    heap s2 = heap sample.
Proof.
  apply (con_toggle_fullscreen_twice sample 5 (node CT_CON (Some 2) []) 9 1 2 3
           eq_refl eq_refl sample_workspace_of_5).
  - lia.
  - reflexivity.
  - exact sample_descendants_valid.
  - vm_compute. lia.
  - exact sample_none_fullscreen.
Defined.



Lemma find_unique {A} (f : A -> bool) (l : list A) a :
  a ∈ l -> f a = true -> (forall x, x ∈ l -> f x = true -> x = a) -> find f l = Some a.
Proof.
  intros Ha Hfa Huniq. destruct (find f l) as [x|] eqn:E.
  - apply find_some_split in E as (l1 & l2 & -> & Hx & _).
    f_equal. apply Huniq; [|done]. rewrite elem_of_app. right. left.
  - rewrite find_none_iff in E. rewrite (E _ Ha) in Hfa. discriminate Hfa.
Qed.

(** X12.  After a container below a workspace has entered fullscreen mode,
    [con_get_fullscreen_con] on the workspace returns that container. *)
Theorem con_toggle_fullscreen_then_search s a c fuel j ws n :
  heap s !! a = Some c -> fullscreen_mode c = CF_NONE ->
  nearest_of_kind s CT_WORKSPACE (Some a) j ws -> j < fuel ->
  level s n (kids s ws) = [] ->
  (forall x, x ∈ descendants s n ws -> is_Some (heap s !! x)) ->
  length (descendants s n ws) + 1 < fuel ->
  (forall x, x ∈ descendants s n ws -> is_fullscreen s x = false) ->
  a ∈ descendants s n ws ->
  exists s',
    con_toggle_fullscreen fuel (Some a) s = Ok tt s' /\
    con_get_fullscreen_con fuel (Some ws) s' = Ok (Some a) s'.
Proof.
  intros Ha Hfs Hnear Hj Hfin Hval Hfuel Hnone Hin.
  exists (toggled s a c CF_OUTPUT). split.
  { rewrite (con_toggle_fullscreen_guard s a c fuel j ws n) by done.
    apply find_none_iff in Hnone. now rewrite Hnone. }
  destruct (toggled_descendants s a c CF_OUTPUT n ws Ha) as [Hd Hl].
  assert (is_Some (heap s !! ws)) as Hws.
  { destruct Hnear as (_ & Ht & _). unfold type_at in Ht.
    destruct (heap s !! ws); [eauto|done]. }
  rewrite (con_get_fullscreen_con_ok _ ws n fuel).
  - f_equal. rewrite Hd. apply find_unique; [done| |].
    + rewrite toggled_is_fullscreen by done. now rewrite decide_True.
    + intros x Hx. rewrite toggled_is_fullscreen by done.
      destruct (decide (x = a)); [done|]. rewrite (Hnone _ Hx). discriminate.
  - now rewrite Hl.
  - now apply toggled_valid.
  - intros x. rewrite Hd. intros Hx. apply toggled_valid. now apply Hval.
  - now rewrite Hd.
Qed.

Lemma con_toggle_fullscreen_then_search_witness :
  exists s',
    con_toggle_fullscreen 9 (Some 5) sample = Ok tt s' /\
    con_get_fullscreen_con 9 (Some 2) s' = Ok (Some 5) s'.
Proof.
  apply (con_toggle_fullscreen_then_search sample 5 (node CT_CON (Some 2) []) 9 1 2 3
           eq_refl eq_refl sample_workspace_of_5).
  - lia.
  - reflexivity.
  - exact sample_descendants_valid.
  - vm_compute. lia.
  - exact sample_none_fullscreen.
  - apply list_elem_of_In. vm_compute. tauto.
Defined.

(** ** More on the percentages *)





(** ** Creating a container and focusing it *)










(** ** Focusing one sibling after another *)

Lemma con_focus_path_linked s s' a l :
  root_path s a l -> linked s l ->
  (forall x cx, heap s !! x = Some cx -> exists cx', heap s' !! x = Some cx') ->
  (forall x cx cx', heap s !! x = Some cx -> heap s' !! x = Some cx' ->
                    focus_result l x cx cx') ->
  linked s' l.
Proof.
  intros Hpath Hlink Hfr Hres. pose proof (root_path_NoDup _ _ _ Hpath) as Hnd.
  apply linked_by_index. intros i x y Hx Hy.
  destruct (root_path_valid _ _ _ y Hpath) as [cy Hcy];
    [apply list_elem_of_lookup; eauto|].
  destruct (Hfr _ _ Hcy) as (cy' & Hcy').
  destruct (Hres _ _ _ Hcy Hcy') as (_ & _ & Hf).
  rewrite (child_on_path_Some _ _ _ _ Hnd Hx Hy) in Hf.
  unfold focus_of. rewrite Hcy', Hf. apply promote_elem.
  pose proof (linked_lookup _ _ _ _ _ Hlink Hx Hy) as Hin.
  unfold focus_of in Hin. now rewrite Hcy in Hin.
Qed.

(** X15.  The focus order is a most-recently-used order: after [con_focus]
    on a container and then on one of its siblings, the parent's focus order
    starts with the sibling, then the container, then the other entries in
    the order they had. *)
Theorem con_focus_most_recent s a b ca cb p l' fuel :
  heap s !! a = Some ca -> parent ca = Some p ->
  heap s !! b = Some cb -> parent cb = Some p -> a <> b ->
  root_path s p l' ->
  linked s (a :: l') -> linked s (b :: l') ->
  urgent_ok s (a :: l') -> urgent_ok s (b :: l') ->
  length l' + 2 <= fuel ->
  exists s1 s2 pc pc2 l1 l2,
    con_focus fuel (Some a) s = Ok tt s1 /\
    con_focus fuel (Some b) s1 = Ok tt s2 /\
    focused s2 = Some b /\
    heap s !! p = Some pc /\ heap s2 !! p = Some pc2 /\
    TAILQ_REMOVE (focus_head pc) a = Some (l1 ++ b :: l2) /\ (b ∉ l1) /\
    focus_head pc2 = b :: a :: l1 ++ l2.
Proof.
  intros Ha Hpa Hb Hpb Hab Hpath Hlinka Hlinkb Hurga Hurgb Hfuel.
  assert (exists l'', l' = p :: l'') as [l'' ->] by (destruct Hpath; eauto).
  assert (root_path s a (a :: p :: l'')) as Hapath by now apply root_path_step with ca p.
  assert (root_path s b (b :: p :: l'')) as Hbpath by now apply root_path_step with cb p.
  pose proof (root_path_NoDup _ _ _ Hapath) as Hnda.
  pose proof (root_path_NoDup _ _ _ Hbpath) as Hndb.
  apply NoDup_cons in Hndb as [Hbl _].
  destruct (root_path_valid s p (p :: l'') p Hpath) as [pc Hp]; [left|].
  destruct (con_focus_path (p :: l'') s a ca p fuel Ha Hpa Hpath Hlinka Hurga Hfuel)
    as (s1 & wss1 & Hrun1 & Hframe1 & _ & Hres1 & _).
  pose proof Hframe1 as (_ & _ & _ & Hfr1).
  (* the state between the two calls *)
  destruct (Hfr1 _ _ Hb) as (cb1 & Hb1 & Hkb).
  assert (parent cb1 = Some p) as Hpb1.
  { apply keeps_structure_fields in Hkb as (_ & _ & _ & _ & _ & _ & -> & _). exact Hpb. }
  destruct (Hfr1 _ _ Hp) as (pc1 & Hp1 & _).
  assert (focus_head pc1 = promote a (focus_head pc)) as Hf1.
  { destruct (Hres1 _ _ _ Hp Hp1) as (_ & _ & ->). cbn [child_on_path].
    now rewrite decide_True. }
  assert (a ∈ focus_head pc) as Hain.
  { destruct Hlinka as [H _]. unfold focus_of in H. now rewrite Hp in H. }
  assert (b ∈ focus_head pc) as Hbin.
  { destruct Hlinkb as [H _]. unfold focus_of in H. now rewrite Hp in H. }
  destruct (TAILQ_REMOVE_Some _ _ Hain) as [r1 Hr1].
  assert (promote a (focus_head pc) = a :: r1) as Hprom
    by (unfold promote; now rewrite Hr1).
  assert (b ∈ r1) as Hbr1.
  { pose proof (promote_perm a (focus_head pc)) as Hperm. rewrite Hprom in Hperm.
    rewrite <- Hperm in Hbin. apply elem_of_cons in Hbin as [->|H]; done. }
  destruct (TAILQ_REMOVE_Some _ _ Hbr1) as [r2 Hr2].
  destruct (TAILQ_REMOVE_split _ _ _ Hr2) as (l1 & l2 & -> & -> & Hl1).
  assert (linked s1 (b :: p :: l'')) as Hlinkb1.
  { split.
    - unfold focus_of. rewrite Hp1, Hf1, Hprom. right. exact Hbr1.
    - assert (linked s1 (a :: p :: l'')) as H; [|now destruct H].
      apply (con_focus_path_linked s s1 a); try done.
      intros x cx Hx. destruct (Hfr1 _ _ Hx) as (cx' & Hx' & _). eauto. }
  assert (urgent_ok s1 (b :: p :: l'')) as Hurgb1.
  { intros x Hx Hu. cbn [removelast] in Hx. apply elem_of_cons in Hx as [->|Hx].
    - destruct (Hres1 _ _ _ Hb Hb1) as (_ & Hub & _).
      rewrite decide_False in Hub.
      + destruct (Hurgb b) as (j & ws & Hnear); [cbn [removelast]; left| |].
        * unfold is_urgent in Hu |- *. rewrite Hb1 in Hu. rewrite Hb. congruence.
        * exists j, ws. now apply (frame_nearest_of_kind s s1).
      + cbn [removelast]. intros [->|H]%elem_of_cons; [done|].
        apply Hbl. now apply elem_of_removelast.
    - exfalso. destruct (root_path_valid _ _ _ x Hpath) as [cx Hcx];
        [now apply elem_of_removelast|].
      destruct (Hfr1 _ _ Hcx) as (cx' & Hcx' & _).
      destruct (Hres1 _ _ _ Hcx Hcx') as (_ & Hux & _).
      unfold is_urgent in Hu. rewrite Hcx', Hux in Hu.
      rewrite decide_True in Hu; [discriminate Hu|]. cbn [removelast]. now right. }
  destruct (con_focus_path (p :: l'') s1 b cb1 p fuel Hb1 Hpb1
              (frame_root_path _ _ _ _ Hframe1 Hpath) Hlinkb1 Hurgb1 Hfuel)
    as (s2 & wss2 & Hrun2 & (_ & _ & _ & Hfr2) & Hfoc2 & Hres2 & _).
  destruct (Hfr2 _ _ Hp1) as (pc2 & Hp2 & _).
  exists s1, s2, pc, pc2, l1, l2. split; [exact Hrun1|]. split; [exact Hrun2|].
  split; [exact Hfoc2|]. split; [exact Hp|]. split; [exact Hp2|].
  split; [exact Hr1|]. split; [exact Hl1|].
  destruct (Hres2 _ _ _ Hp1 Hp2) as (_ & _ & ->). cbn [child_on_path].
  rewrite decide_True by done. rewrite Hf1, Hprom.
  apply (promote_split _ b (a :: l1) l2); [done|].
  rewrite not_elem_of_cons. split; [auto|done].
Qed.

Lemma con_focus_most_recent_witness :
  exists s1 s2,
    con_focus 8 (Some 3) sample = Ok tt s1 /\
    con_focus 8 (Some 5) s1 = Ok tt s2 /\
    focused s2 = Some 5 /\
    focus_of sample 2 = [3; 4; 5] /\ focus_of s2 2 = [5; 3; 4].
Proof.
  destruct (con_focus_most_recent sample 3 5 _ _ 2 [2; 1; 0] 8
              eq_refl eq_refl eq_refl eq_refl)
    as (s1 & s2 & pc & pc2 & l1 & l2 & Hrun1 & Hrun2 & Hfoc & _).
  - lia.
  - eapply root_path_step; [reflexivity..|].
    eapply root_path_step; [reflexivity..|].
    eapply root_path_root; reflexivity.
  - repeat split; vm_compute; apply list_elem_of_In; simpl; tauto.
  - repeat split; vm_compute; apply list_elem_of_In; simpl; tauto.
  - intros x Hx%list_elem_of_In Hu. simpl in Hx.
    destruct Hx as [<-|[<-|[<-|[]]]]; discriminate Hu.
  - intros x Hx%list_elem_of_In Hu. simpl in Hx.
    destruct Hx as [<-|[<-|[<-|[]]]]; discriminate Hu.
  - simpl. lia.
  - exists s1, s2. split; [exact Hrun1|]. split; [exact Hrun2|]. split; [exact Hfoc|].
    split; [reflexivity|].
    vm_compute in Hrun1. injection Hrun1 as <-.
    vm_compute in Hrun2. injection Hrun2 as <-. reflexivity.
Defined.
